(** * A two-player chess clock (Arduino sketch), embedded and verified

    The sketch [chess_clock.ino] exists in two hardware variants that share
    the whole turn/time logic: a plain one (LCD, three buttons, buzzer) and
    one with two status LEDs and distinct start/pause beeps.  Both are
    embedded here, the differences being selected by a [Variant].

    The sketch talks to its board through [millis], [digitalRead], [delay],
    the LCD and the buzzer.  These calls are kept abstract: a [Board] gives,
    for a type of worlds, the answer of every input call and the effect of
    every output call on the world, so that each theorem holds whatever the
    buttons and the clock do.  Every output call is also appended to a log,
    which is what the theorems about beeps and messages look at. *)

From Stdlib Require Import ZArith Lia List String Bool.
Import ListNotations.
Open Scope Z_scope.

(** ** Machine integers

    The pin numbers (25, 26, 27, 32, 33) are ESP32 GPIOs: [int] is a 32-bit
    signed integer and [unsigned long] a 32-bit unsigned one. *)

Definition ULONG_MOD : Z := 2 ^ 32.

Definition to_ulong (z : Z) : Z := z mod ULONG_MOD.

Definition to_int (z : Z) : Z := (z + 2 ^ 31) mod 2 ^ 32 - 2 ^ 31.

Definition is_ulong (z : Z) : Prop := 0 <= z < ULONG_MOD.

(** ** The board interface *)

Inductive Level : Type := LOW | HIGH.

Inductive PinModeKind : Type := OUTPUT | INPUT_PULLUP.

Inductive Variant : Type := Plain | WithLeds.

(** The buzzer helpers of the sketch.  [playWarningBeep] is called from two
    places of [loop]; the call at the one-minute test is logged as
    [WarningOneMinute], the call at the thirty-second test as
    [WarningThirtySeconds].  [StartupBeep] is [playStartupBeep] (plain
    variant), [RunStarted] is [playStartBeep], [RunPaused] is
    [playPauseBeep], [FinalCountdownBeep] is [playFinalSecondsBeep].
    Each helper toggles the buzzer pin in a loop of [digitalWrite] and
    [delayMicroseconds]; a call is one [Beep] output here. *)
Inductive Signal : Type :=
| StartupBeep
| RunStarted
| RunPaused
| WarningOneMinute
| WarningThirtySeconds
| FinalCountdownBeep.

Inductive Output : Type :=
| PinMode (pin : Z) (mode : PinModeKind)
| DigitalWrite (pin : Z) (lv : Level)
| Delay (ms : Z)
| LcdInit
| LcdBacklight
| LcdClear
| LcdSetCursor (col row : Z)
| LcdPrint (s : string)
| LcdPrintInt (n : Z)
| Beep (sig : Signal).

Class Board (W : Type) : Type := {
  board_millis : W -> Z * W;
  board_digitalRead : Z -> W -> Level * W;
  board_perform : Output -> W -> W
}.

Definition signal_eqb (a b : Signal) : bool :=
  match a, b with
  | StartupBeep, StartupBeep
  | RunStarted, RunStarted
  | RunPaused, RunPaused
  | WarningOneMinute, WarningOneMinute
  | WarningThirtySeconds, WarningThirtySeconds
  | FinalCountdownBeep, FinalCountdownBeep => true
  | _, _ => false
  end.

Definition is_beep (sig : Signal) (o : Output) : bool :=
  match o with
  | Beep s => signal_eqb sig s
  | _ => false
  end.

(** Number of times the buzzer helper [sig] was called in a log. *)
Definition beeps (sig : Signal) (log : list Output) : nat :=
  List.length (filter (is_beep sig) log).

Definition printed (s : string) (log : list Output) : Prop :=
  In (LcdPrint s) log.

(** ** Program state *)

(** The global variables of the sketch. *)
Record Globals : Type := mkGlobals {
  currentTimeOption : Z;
  blackTime : Z;
  whiteTime : Z;
  lastUpdateTime : Z;
  isWhiteTurn : bool;
  isRunning : bool;
  isSetup : bool
}.

(** The [static] locals of [loop] and [handleGame].  [lastTurn] is
    initialised from [isWhiteTurn] the first time [handleGame] runs, so it
    is [None] until then.  ([wasRunning] of the LED variant is declared and
    never read or written; it is left out.) *)
Record Statics : Type := mkStatics {
  wasSetup : bool;
  hasOneMinuteWarning : bool;
  hasThirtySecondWarning : bool;
  lastFinalSecondBeep : Z;
  lastTurn : option bool
}.

Definition set_currentTimeOption (v : Z) (g : Globals) : Globals :=
  mkGlobals v (blackTime g) (whiteTime g) (lastUpdateTime g)
            (isWhiteTurn g) (isRunning g) (isSetup g).
Definition set_blackTime (v : Z) (g : Globals) : Globals :=
  mkGlobals (currentTimeOption g) v (whiteTime g) (lastUpdateTime g)
            (isWhiteTurn g) (isRunning g) (isSetup g).
Definition set_whiteTime (v : Z) (g : Globals) : Globals :=
  mkGlobals (currentTimeOption g) (blackTime g) v (lastUpdateTime g)
            (isWhiteTurn g) (isRunning g) (isSetup g).
Definition set_lastUpdateTime (v : Z) (g : Globals) : Globals :=
  mkGlobals (currentTimeOption g) (blackTime g) (whiteTime g) v
            (isWhiteTurn g) (isRunning g) (isSetup g).
Definition set_isWhiteTurn (v : bool) (g : Globals) : Globals :=
  mkGlobals (currentTimeOption g) (blackTime g) (whiteTime g)
            (lastUpdateTime g) v (isRunning g) (isSetup g).
Definition set_isRunning (v : bool) (g : Globals) : Globals :=
  mkGlobals (currentTimeOption g) (blackTime g) (whiteTime g)
            (lastUpdateTime g) (isWhiteTurn g) v (isSetup g).
Definition set_isSetup (v : bool) (g : Globals) : Globals :=
  mkGlobals (currentTimeOption g) (blackTime g) (whiteTime g)
            (lastUpdateTime g) (isWhiteTurn g) (isRunning g) v.

Definition set_wasSetup (v : bool) (s : Statics) : Statics :=
  mkStatics v (hasOneMinuteWarning s) (hasThirtySecondWarning s)
            (lastFinalSecondBeep s) (lastTurn s).
Definition set_hasOneMinuteWarning (v : bool) (s : Statics) : Statics :=
  mkStatics (wasSetup s) v (hasThirtySecondWarning s)
            (lastFinalSecondBeep s) (lastTurn s).
Definition set_hasThirtySecondWarning (v : bool) (s : Statics) : Statics :=
  mkStatics (wasSetup s) (hasOneMinuteWarning s) v
            (lastFinalSecondBeep s) (lastTurn s).
Definition set_lastFinalSecondBeep (v : Z) (s : Statics) : Statics :=
  mkStatics (wasSetup s) (hasOneMinuteWarning s) (hasThirtySecondWarning s)
            v (lastTurn s).
Definition set_lastTurn (v : option bool) (s : Statics) : Statics :=
  mkStatics (wasSetup s) (hasOneMinuteWarning s) (hasThirtySecondWarning s)
            (lastFinalSecondBeep s) v.

(** The values the variables have when [setup] starts. *)
Definition initial_globals : Globals :=
  mkGlobals 1 0 0 0 true false true.

Definition initial_statics : Statics :=
  mkStatics true false false 0 None.

(** ** Players *)

Inductive Player : Type := White | Black.

Definition other (p : Player) : Player :=
  match p with White => Black | Black => White end.

(** The player whose clock is debited. *)
Definition active (g : Globals) : Player :=
  if isWhiteTurn g then White else Black.

Definition remaining (p : Player) (g : Globals) : Z :=
  match p with White => whiteTime g | Black => blackTime g end.

(** ** Time options *)

Definition TIME_OPTIONS : list Z := [120; 600; 1800; 3600].
Definition NUM_OPTIONS : Z := 4.

(** [TIME_OPTIONS[i]].  An index outside the array is undefined behaviour
    in the sketch; [valid_option] below is kept by every operation, so the
    default is never taken. *)
Definition time_option (i : Z) : Z := nth (Z.to_nat i) TIME_OPTIONS 0.

(** ** The pure cores of [handleGame] and [loop] *)

(** [(elapsed >= t) ? 0 : t - elapsed] on [unsigned long]. *)
Definition debit (elapsed t : Z) : Z :=
  if elapsed >=? t then 0 else to_ulong (t - elapsed).

(** The time update of [handleGame], given the value [currentTime] read
    from [millis]. *)
Definition advance (currentTime : Z) (g : Globals) : Globals :=
  let elapsed := to_ulong (currentTime - lastUpdateTime g) in
  let g1 :=
    if isWhiteTurn g
    then set_whiteTime (debit elapsed (whiteTime g)) g
    else set_blackTime (debit elapsed (blackTime g)) g in
  set_lastUpdateTime currentTime g1.

(** The test [whiteTime == 0 || blackTime == 0] that ends a game. *)
Definition gameEnded (g : Globals) : bool :=
  (whiteTime g =? 0) || (blackTime g =? 0).

(** The winner that [gameOver] announces. *)
Definition winner (g : Globals) : Player :=
  if whiteTime g =? 0 then Black else White.

Definition winsMessage (p : Player) : string :=
  match p with Black => "Black Wins!" | White => "White Wins!" end.

(** [*currentPlayerTime] in [loop]. *)
Definition currentPlayerTime (g : Globals) : Z :=
  if isWhiteTurn g then whiteTime g else blackTime g.

(** The value the claims about the final countdown speak of: the whole
    seconds left, rounded up.  The sketch itself never computes it. *)
Definition secondsLeft (t : Z) : Z := (t + 999) / 1000.

(** ** The machine and its monad *)

Record Machine (W : Type) : Type := mkMachine {
  globals : Globals;
  statics : Statics;
  world : W;
  out : list Output
}.

Arguments mkMachine {W} _ _ _ _.
Arguments globals {W} _.
Arguments statics {W} _.
Arguments world {W} _.
Arguments out {W} _.

(** A computation either returns, or is still inside the wait loop of
    [gameOver] when its polls are used up; the machine is kept in both
    cases. *)
Inductive Res (W A : Type) : Type :=
| Done (a : A) (m : Machine W)
| Blocked (m : Machine W).

Arguments Done {W A} _ _.
Arguments Blocked {W A} _.

Definition M (W A : Type) : Type := Machine W -> Res W A.

Definition ret {W A} (a : A) : M W A := fun m => Done a m.

Definition bind {W A B} (c : M W A) (k : A -> M W B) : M W B :=
  fun m =>
    match c m with
    | Done a m' => k a m'
    | Blocked m' => Blocked m'
    end.

Notation "x <- c ;; k" := (bind c (fun x => k))
  (at level 61, c at next level, right associativity).
Notation "c ;; k" := (bind c (fun _ => k))
  (at level 61, right associativity).

(** The machine a computation ends in, returned or blocked. *)
Definition final {W A} (r : Res W A) : Machine W :=
  match r with Done _ m => m | Blocked m => m end.

Definition returned {W A} (r : Res W A) : bool :=
  match r with Done _ _ => true | Blocked _ => false end.

Definition when {W} (b : bool) (c : M W unit) : M W unit :=
  if b then c else ret tt.

Definition is_low (lv : Level) : bool :=
  match lv with LOW => true | HIGH => false end.

Section Sketch.

Context {W : Type} {board : Board W}.
Variable variant : Variant.

(** *** Primitives *)

Definition getG : M W Globals := fun m => Done (globals m) m.

Definition getS : M W Statics := fun m => Done (statics m) m.

Definition modifyG (f : Globals -> Globals) : M W unit :=
  fun m => Done tt (mkMachine (f (globals m)) (statics m) (world m) (out m)).

Definition modifyS (f : Statics -> Statics) : M W unit :=
  fun m => Done tt (mkMachine (globals m) (f (statics m)) (world m) (out m)).

(** [millis()], as stored in an [unsigned long]. *)
Definition millis : M W Z :=
  fun m =>
    let r := board_millis (world m) in
    Done (to_ulong (fst r)) (mkMachine (globals m) (statics m) (snd r) (out m)).

Definition digitalRead (pin : Z) : M W Level :=
  fun m =>
    let r := board_digitalRead pin (world m) in
    Done (fst r) (mkMachine (globals m) (statics m) (snd r) (out m)).

(** Any output call: it acts on the world and is logged. *)
Definition emit (o : Output) : M W unit :=
  fun m =>
    Done tt (mkMachine (globals m) (statics m)
                       (board_perform o (world m)) (out m ++ [o])).

Definition delay (ms : Z) : M W unit := emit (Delay ms).
Definition lcd_print (s : string) : M W unit := emit (LcdPrint s).
Definition lcd_printInt (n : Z) : M W unit := emit (LcdPrintInt n).
Definition lcd_setCursor (col row : Z) : M W unit := emit (LcdSetCursor col row).
Definition play (sig : Signal) : M W unit := emit (Beep sig).

(** *** Pins *)

Definition B_BUTTON : Z := 14.
Definition W_BUTTON : Z :=
  match variant with Plain => 26 | WithLeds => 25 end.
Definition CONTROL_BUTTON : Z := 27.
Definition BUZZER_PIN : Z :=
  match variant with Plain => 32 | WithLeds => 4 end.
Definition B_LED_PIN : Z := 33.
Definition W_LED_PIN : Z := 32.

(** *** [resetTimes] *)

Definition resetTimes : M W unit :=
  g <- getG;;
  modifyG (set_blackTime
             (to_ulong (to_int (time_option (currentTimeOption g) * 1000))));;
  g <- getG;;
  modifyG (set_whiteTime
             (to_ulong (to_int (time_option (currentTimeOption g) * 1000))));;
  t <- millis;;
  modifyG (set_lastUpdateTime t).

(** *** [setup] *)

Definition setup : M W unit :=
  emit (PinMode BUZZER_PIN OUTPUT);;
  match variant with
  | Plain => ret tt
  | WithLeds =>
      emit (PinMode B_LED_PIN OUTPUT);;
      emit (PinMode W_LED_PIN OUTPUT);;
      emit (DigitalWrite W_LED_PIN HIGH);;
      emit (DigitalWrite B_LED_PIN LOW)
  end;;
  emit LcdInit;;
  emit LcdBacklight;;
  emit (PinMode B_BUTTON INPUT_PULLUP);;
  emit (PinMode W_BUTTON INPUT_PULLUP);;
  emit (PinMode CONTROL_BUTTON INPUT_PULLUP);;
  resetTimes;;
  lcd_print "Chess Clock";;
  lcd_setCursor 0 1;;
  lcd_print "Select time...";;
  delay 2000.

(** *** [handleSetup] *)

(** The first four statements: the selected time on the LCD. *)
Definition showTimeOption : M W unit :=
  lcd_setCursor 0 0;;
  lcd_print "Time: ";;
  g <- getG;;
  lcd_printInt (Z.quot (time_option (currentTimeOption g)) 60);;
  lcd_print " min   ".

(** [if (digitalRead(B_BUTTON) == LOW)]: the next option. *)
Definition nextOption : M W unit :=
  b <- digitalRead B_BUTTON;;
  when (is_low b)
    (modifyG (fun g =>
       set_currentTimeOption
         (Z.rem (to_int (currentTimeOption g + 1)) NUM_OPTIONS) g);;
     delay 200).

(** [if (digitalRead(W_BUTTON) == LOW)]: the previous option. *)
Definition previousOption : M W unit :=
  w <- digitalRead W_BUTTON;;
  when (is_low w)
    (modifyG (fun g =>
       set_currentTimeOption
         (Z.rem (to_int (to_int (currentTimeOption g - 1) + NUM_OPTIONS))
                NUM_OPTIONS) g);;
     delay 200).

(** [if (digitalRead(CONTROL_BUTTON) == LOW)]: the setup is confirmed. *)
Definition confirmSetup : M W unit :=
  c <- digitalRead CONTROL_BUTTON;;
  when (is_low c)
    (modifyG (set_isSetup false);;
     resetTimes;;
     emit LcdClear;;
     delay 200).

Definition handleSetup : M W unit :=
  showTimeOption;;
  nextOption;;
  previousOption;;
  confirmSetup.

(** *** Display helpers *)

Definition printFormattedTime (timeInMs : Z) : M W unit :=
  let seconds0 := to_int (timeInMs / 1000) in
  let minutes := Z.quot seconds0 60 in
  let seconds := Z.rem seconds0 60 in
  when (minutes <? 10) (lcd_print "0");;
  lcd_printInt minutes;;
  lcd_print ":";;
  when (seconds <? 10) (lcd_print "0");;
  lcd_printInt seconds.

Definition displayTimes : M W unit :=
  match variant with
  | Plain =>
      lcd_setCursor 0 0;;
      lcd_print "B: ";;
      g <- getG;;
      printFormattedTime (blackTime g);;
      lcd_print "     ";;
      lcd_setCursor 0 1;;
      lcd_print "W: ";;
      g <- getG;;
      printFormattedTime (whiteTime g);;
      lcd_print "     "
  | WithLeds =>
      lcd_setCursor 0 0;;
      lcd_print "  W       B";;
      lcd_print "      ";;
      lcd_setCursor 0 1;;
      g <- getG;;
      printFormattedTime (whiteTime g);;
      lcd_print "   ";;
      g <- getG;;
      printFormattedTime (blackTime g);;
      lcd_print "      "
  end.

Definition updateTurnDisplay : M W unit :=
  lcd_setCursor 15 0;;
  lcd_print " ";;
  lcd_setCursor 15 1;;
  lcd_print " ";;
  g <- getG;;
  match variant with
  | Plain =>
      lcd_setCursor 15 (if isWhiteTurn g then 1 else 0);;
      lcd_print "*"
  | WithLeds =>
      if isWhiteTurn g
      then emit (DigitalWrite W_LED_PIN HIGH);;
           emit (DigitalWrite B_LED_PIN LOW)
      else emit (DigitalWrite B_LED_PIN HIGH);;
           emit (DigitalWrite W_LED_PIN LOW)
  end.

(** *** [gameOver] *)

(** The part of [gameOver] before its wait loop. *)
Definition announce : M W unit :=
  modifyG (set_isRunning false);;
  emit LcdClear;;
  lcd_setCursor 0 0;;
  lcd_print "Game Over!";;
  lcd_setCursor 0 1;;
  g <- getG;;
  (if whiteTime g =? 0
   then lcd_print "Black Wins!"
   else lcd_print "White Wins!");;
  match variant with
  | Plain => ret tt
  | WithLeds =>
      emit (DigitalWrite B_LED_PIN LOW);;
      emit (DigitalWrite W_LED_PIN LOW)
  end.

(** [while (digitalRead(CONTROL_BUTTON) == HIGH) delay(50);] with at most
    [polls] reads of the button. *)
Fixpoint waitRestart (polls : nat) : M W unit :=
  match polls with
  | O => fun m => Blocked m
  | S k =>
      c <- digitalRead CONTROL_BUTTON;;
      if is_low c then ret tt else delay 50;; waitRestart k
  end.

Definition gameOver (polls : nat) : M W unit :=
  announce;;
  waitRestart polls;;
  modifyG (set_isSetup true);;
  resetTimes.

(** *** [handleGame] *)

(** [static bool lastTurn = isWhiteTurn;] takes effect on the first call. *)
Definition initLastTurn : M W unit :=
  s <- getS;;
  match lastTurn s with
  | Some _ => ret tt
  | None => g <- getG;; modifyS (set_lastTurn (Some (isWhiteTurn g)))
  end.

(** The control button: start or pause. *)
Definition toggleRun : M W unit :=
  c <- digitalRead CONTROL_BUTTON;;
  when (is_low c)
    (modifyG (fun g => set_isRunning (negb (isRunning g)) g);;
     t <- millis;;
     modifyG (set_lastUpdateTime t);;
     match variant with
     | Plain => ret tt
     | WithLeds =>
         g <- getG;;
         if isRunning g then play RunStarted else play RunPaused
     end;;
     delay 200).

(** The time update for the current player. *)
Definition updateTime : M W unit :=
  currentTime <- millis;;
  modifyG (advance currentTime).

(** The player switches. *)
Definition switchTurn : M W unit :=
  g <- getG;;
  if isWhiteTurn g
  then
    w <- digitalRead W_BUTTON;;
    when (is_low w) (modifyG (set_isWhiteTurn false);; delay 200)
  else
    b <- digitalRead B_BUTTON;;
    when (is_low b) (modifyG (set_isWhiteTurn true);; delay 200).

Definition turnChanged (g : Globals) (s : Statics) : bool :=
  match lastTurn s with
  | Some b => negb (Bool.eqb (isWhiteTurn g) b)
  | None => false
  end.

(** [handleGame] up to its game-end test. *)
Definition gameStep : M W unit :=
  initLastTurn;;
  toggleRun;;
  g <- getG;;
  when (isRunning g) (updateTime;; switchTurn);;
  g <- getG;;
  s <- getS;;
  when (turnChanged g s)
    (modifyS (set_lastTurn (Some (isWhiteTurn g)));;
     updateTurnDisplay);;
  displayTimes.

Definition handleGame (polls : nat) : M W unit :=
  gameStep;;
  g <- getG;;
  when (gameEnded g) (gameOver polls).

(** *** [loop] *)

(** The body of [for (int i = 5; i > 0; i--)], run for [i = n, ..., 1]. *)
Fixpoint finalSecondsLoop (n : nat) (currentTime : Z) : M W unit :=
  match n with
  | O => ret tt
  | S k =>
      g <- getG;;
      s <- getS;;
      when ((currentPlayerTime g <=? to_ulong (to_ulong (Z.of_nat n) * 1000))
            && (to_ulong (currentTime - lastFinalSecondBeep s) >=? 1000))
        (play FinalCountdownBeep;;
         modifyS (set_lastFinalSecondBeep currentTime));;
      finalSecondsLoop k currentTime
  end.

(** [// 1-minute warning (only once)] *)
Definition oneMinuteWarning : M W unit :=
  g <- getG;;
  s <- getS;;
  when ((currentPlayerTime g <=? 60000) && negb (hasOneMinuteWarning s))
    (play WarningOneMinute;;
     modifyS (set_hasOneMinuteWarning true)).

(** [// 30-second warning (only once)] *)
Definition thirtySecondWarning : M W unit :=
  g <- getG;;
  s <- getS;;
  when ((currentPlayerTime g <=? 30000) && negb (hasThirtySecondWarning s))
    (play WarningThirtySeconds;;
     modifyS (set_hasThirtySecondWarning true)).

(** [// Final 5 seconds beeps] *)
Definition finalSeconds (currentTime : Z) : M W unit :=
  g <- getG;;
  when (currentPlayerTime g <=? 5000)
    (finalSecondsLoop 5 currentTime).

(** The warning beeps of [loop], run when [isRunning] holds after
    [handleGame]. *)
Definition warnings : M W unit :=
  currentTime <- millis;;
  oneMinuteWarning;;
  thirtySecondWarning;;
  finalSeconds currentTime.

Definition resetWarnings (s : Statics) : Statics :=
  set_lastFinalSecondBeep 0
    (set_hasThirtySecondWarning false
       (set_hasOneMinuteWarning false s)).

(** One pass of [loop]. *)
Definition loop (polls : nat) : M W unit :=
  g <- getG;;
  (if isSetup g
   then
     handleSetup;;
     modifyS resetWarnings
   else
     s <- getS;;
     when (wasSetup s && negb (isSetup g))
       (match variant with
        | Plain => play StartupBeep
        | WithLeds => play RunStarted
        end);;
     handleGame polls;;
     g <- getG;;
     when (isRunning g) warnings);;
  g <- getG;;
  modifyS (set_wasSetup (isSetup g)).

(** The machine at power-on, and after [setup]. *)
Definition power_on (w : W) : Machine W :=
  mkMachine initial_globals initial_statics w [].

(** [passes n polls m]: [n] passes of [loop] in a row. *)
Fixpoint passes (n : nat) (polls : nat) : M W unit :=
  match n with
  | O => ret tt
  | S k => loop polls;; passes k polls
  end.

End Sketch.

Arguments loop {W board} variant polls _.
Arguments passes {W board} variant n polls _.

(** ** A scripted board

    A board whose answers are written down in advance: the successive
    values of [millis], and for each button the successive levels it is
    read at.  A button whose script is used up reads [HIGH] (released); a
    clock whose script is used up reads 0.  Output calls leave the script
    as it is. *)

Record Script : Type := mkScript {
  clock_script : list Z;
  control_script : list Level;
  white_script : list Level;
  black_script : list Level
}.

Definition script_millis (s : Script) : Z * Script :=
  match clock_script s with
  | [] => (0, s)
  | t :: ts =>
      (t, mkScript ts (control_script s) (white_script s) (black_script s))
  end.

Definition script_digitalRead (pin : Z) (s : Script) : Level * Script :=
  if pin =? 27 then
    match control_script s with
    | [] => (HIGH, s)
    | l :: ls =>
        (l, mkScript (clock_script s) ls (white_script s) (black_script s))
    end
  else if pin =? 14 then
    match black_script s with
    | [] => (HIGH, s)
    | l :: ls =>
        (l, mkScript (clock_script s) (control_script s) (white_script s) ls)
    end
  else
    match white_script s with
    | [] => (HIGH, s)
    | l :: ls =>
        (l, mkScript (clock_script s) (control_script s) ls (black_script s))
    end.

#[export] Instance script_board : Board Script := {
  board_millis := script_millis;
  board_digitalRead := script_digitalRead;
  board_perform := fun _ s => s
}.

(** The machine after power-on, [setup] and [n] passes of [loop]. *)
Definition boot {W} {board : Board W} (variant : Variant) (n polls : nat)
  (w : W) : Res W unit :=
  (setup variant;; passes variant n polls) (power_on w).

(** ** Vocabulary of the statements *)

Section Observations.

Context {W : Type} {board : Board W}.
Variable variant : Variant.

(** What [digitalRead(pin)] and [millis()] answer when called at [m]. *)
Definition reading (pin : Z) (m : Machine W) : Level :=
  fst (board_digitalRead pin (world m)).

Definition clock (m : Machine W) : Z :=
  to_ulong (fst (board_millis (world m))).

(** The button of a player. *)
Definition button (p : Player) : Z :=
  match p with White => W_BUTTON variant | Black => B_BUTTON end.

(** Points of [handleGame]: after the control-button block, and after the
    time update (where the player switches start). *)
Definition afterToggle (m : Machine W) : Machine W :=
  final (toggleRun variant (final (initLastTurn m))).

Definition afterUpdate (m : Machine W) : Machine W :=
  final (updateTime (afterToggle m)).

(** The point of [handleSetup] where the control button is read. *)
Definition atConfirm (m : Machine W) : Machine W :=
  final (previousOption variant (final (nextOption (final (showTimeOption m))))).

(** The point where [loop], outside the setup mode, calls [handleGame]
    (after the beep of a game that has just started). *)
Definition atHandleGame (m : Machine W) : Machine W :=
  if wasSetup (statics m)
  then final (play match variant with
                   | Plain => StartupBeep
                   | WithLeds => RunStarted
                   end m)
  else m.

(** The rest of a pass of [loop] once [handleGame] has returned. *)
Definition afterGame : M W unit :=
  (g <- getG;; when (isRunning g) warnings);;
  g <- getG;; modifyS (set_wasSetup (isSetup g)).

(** The outputs a computation adds to the log. *)
Definition emitted {A} (c : M W A) (m : Machine W) : list Output :=
  skipn (List.length (out m)) (out (final (c m))).

(** What holds at the top of every pass of [loop]: the option index is
    inside the array, and both clocks are non-zero [unsigned long]s. *)
Definition valid_option (g : Globals) : Prop :=
  0 <= currentTimeOption g < NUM_OPTIONS.

Definition Inv (g : Globals) : Prop :=
  valid_option g /\
  0 < whiteTime g < ULONG_MOD /\
  0 < blackTime g < ULONG_MOD /\
  is_ulong (lastUpdateTime g).

Inductive reachable : Machine W -> Prop :=
| reach_setup w m :
    setup variant (power_on w) = Done tt m -> reachable m
| reach_loop m polls m' :
    reachable m -> loop variant polls m = Done tt m' -> reachable m'.

(** [game_run m m']: passes of [loop] lead from [m] to [m'], each of them
    starting outside the setup mode, that is, all within one game. *)
Inductive game_run : Machine W -> Machine W -> Prop :=
| game_run_refl m : game_run m m
| game_run_step m polls m1 m2 :
    isSetup (globals m) = false ->
    loop variant polls m = Done tt m1 ->
    game_run m1 m2 ->
    game_run m m2.

(** The seconds left (rounded up) of the current player at each final
    countdown beep of [n] passes of [loop]. *)
Fixpoint final_beep_seconds (n polls : nat) (m : Machine W) : list Z :=
  match n with
  | O => []
  | S k =>
      let m' := final (loop variant polls m) in
      (if (beeps FinalCountdownBeep (out m)
           <? beeps FinalCountdownBeep (out m'))%nat
       then [secondsLeft (currentPlayerTime (globals m'))]
       else [])
      ++ final_beep_seconds k polls m'
  end.

(** [n] passes in a row that all start outside the setup mode. *)
Fixpoint in_game (n polls : nat) (m : Machine W) : bool :=
  match n with
  | O => true
  | S k =>
      negb (isSetup (globals m))
      && in_game k polls (final (loop variant polls m))
  end.

(** The final countdown condition of a pass, seen from the machine after
    [handleGame] and the reading of [millis]. *)
Definition finalBeepDue (currentTime : Z) (g : Globals) (s : Statics) : bool :=
  (currentPlayerTime g <=? 5000)
  && (to_ulong (currentTime - lastFinalSecondBeep s) >=? 1000).

(** The variables after [resetTimes], given the value [t] that it reads
    from [millis]. *)
Definition full_time (g : Globals) : Z :=
  to_ulong (to_int (time_option (currentTimeOption g) * 1000)).

Definition reset (t : Z) (g : Globals) : Globals :=
  set_lastUpdateTime t
    (set_whiteTime (full_time g) (set_blackTime (full_time g) g)).

(** The variables after the control-button block of [handleGame], given
    the level read and the value of [millis]. *)
Definition toggled (c : Level) (t : Z) (g : Globals) : Globals :=
  if is_low c
  then set_lastUpdateTime t (set_isRunning (negb (isRunning g)) g)
  else g.

(** The variables after the player switches, given the level read at the
    button of the active player. *)
Definition switched (b : Level) (g : Globals) : Globals :=
  if is_low b then set_isWhiteTurn (negb (isWhiteTurn g)) g else g.

(** What [gameOver] writes before it waits. *)
Definition announcement (g : Globals) : list Output :=
  [LcdClear; LcdSetCursor 0 0; LcdPrint "Game Over!"; LcdSetCursor 0 1;
   LcdPrint (winsMessage (winner g))]
  ++ match variant with
     | Plain => []
     | WithLeds =>
         [DigitalWrite B_LED_PIN LOW; DigitalWrite W_LED_PIN LOW]
     end.

(** The flag that [loop] sets when it sounds a warning. *)
Definition warned (sig : Signal) (s : Statics) : bool :=
  match sig with
  | WarningOneMinute => hasOneMinuteWarning s
  | WarningThirtySeconds => hasThirtySecondWarning s
  | _ => true
  end.

(** The warnings [sig] sounded so far, plus one if it may still sound in
    this game. *)
Definition pending (sig : Signal) (s : Statics) (l : list Output) : nat :=
  (beeps sig l + if warned sig s then 0 else 1)%nat.

(** [keeps I c]: running [c] keeps the property [I] of the variables and
    the log, whether [c] returns or blocks. *)
Definition keeps (I : Globals -> Statics -> list Output -> Prop)
  {A} (c : M W A) : Prop :=
  forall m,
    I (globals m) (statics m) (out m) ->
    I (globals (final (c m))) (statics (final (c m))) (out (final (c m))).


(** [c] always returns. *)
Definition total {A} (c : M W A) : Prop :=
  forall m, exists a, c m = Done a (final (c m)).

End Observations.

(** *** Statements of the specification that the sketch does not satisfy *)

(** Turn switching as the specification words it: while running, the
    button of the active player does nothing and the button of the other
    player flips the turn. *)
Definition switchTurn_as_specified : Prop :=
  forall (variant : Variant) (polls : nat) (m : Machine Script),
    isRunning (globals m) = true ->
    reading (CONTROL_BUTTON) m = HIGH ->
    let p := active (globals m) in
    let m2 := afterUpdate variant m in
    let turn' := isWhiteTurn (globals (final (handleGame variant polls m))) in
    (reading (button variant p) m2 = LOW ->
     turn' = isWhiteTurn (globals m)) /\
    (reading (button variant (other p)) m2 = LOW ->
     turn' = negb (isWhiteTurn (globals m))).

(** The final countdown as the specification words it: within a game, at
    most one beep for each value of the seconds left. *)
Definition finalCountdown_as_specified : Prop :=
  forall (variant : Variant) (n polls : nat) (m : Machine Script),
    in_game variant n polls m = true ->
    NoDup (final_beep_seconds variant n polls m).

(** *** Concrete machines *)

(** White to move, clock running, ten minutes each, at time 5000; White
    presses the own button, Black's button is released. *)
Definition white_presses : Machine Script :=
  mkMachine (mkGlobals 1 600000 600000 5000 true true false)
            (mkStatics false false false 0 (Some true))
            (mkScript [5010; 5020] [HIGH] [LOW] [HIGH])
            [].

(** White to move, clock running; Black presses out of turn, White's
    button is released. *)
Definition black_presses : Machine Script :=
  mkMachine (mkGlobals 1 600000 600000 5000 true true false)
            (mkStatics false false false 0 (Some true))
            (mkScript [5010; 5020] [HIGH] [HIGH] [LOW])
            [].

(** White, still on the first move of a two-minute game, is down to 5010
    ms.  The first pass brings the clock to 5000 and beeps (at 118012); the
    second pauses the game (control button, at 118030); two passes go by
    paused; the fifth resumes the game ten seconds later (at 128000),
    debits the 200 ms of the debounce delay and beeps again (at 128215)
    with 4800 ms left. *)
Definition paused_countdown : Machine Script :=
  mkMachine (mkGlobals 0 120000 5010 117990 true true false)
            (mkStatics false true true 0 (Some true))
            (mkScript [118000; 118012; 118030; 128000; 128200; 128215]
                      [HIGH; LOW; HIGH; HIGH; LOW] [HIGH; HIGH] [])
            [].

(** White to move with 60010 ms left, clock running, no warning sounded
    yet; three passes follow, 20 ms apart. *)
Definition minute_warning : Machine Script :=
  mkMachine (mkGlobals 0 120000 60010 62990 true true false)
            (mkStatics false false false 0 (Some true))
            (mkScript [63010; 63012; 63030; 63032; 63050; 63052]
                      [HIGH; HIGH; HIGH] [HIGH; HIGH; HIGH] [])
            [].

(** A running clock and two readings of [millis] in the same
    millisecond. *)
Definition same_reading : Machine Script :=
  mkMachine (mkGlobals 1 600000 600000 5000 true true false)
            (mkStatics false false false 0 (Some true))
            (mkScript [5010; 5010] [] [] [])
            [].

(** A paused game with the control button released, a quarter of an hour
    after the last update. *)
Definition idle_pause : Machine Script :=
  mkMachine (mkGlobals 1 600000 595000 5000 true false false)
            (mkStatics false false false 0 (Some true))
            (mkScript [900000] [HIGH] [] [])
            [].

(** Both clocks at zero at the game-end test: Black has none left, and
    White, to move, runs out in this pass. *)
Definition both_flags_fall : Machine Script :=
  mkMachine (mkGlobals 1 0 300 7000 true true false)
            (mkStatics false true true 6500 (Some true))
            (mkScript [7400; 9000] [HIGH; HIGH; LOW] [HIGH] [])
            [].

(** A game in progress: Black to move with 450 ms left. *)
Definition black_to_move : Machine Script :=
  mkMachine (mkGlobals 1 450 200000 7000 false true false)
            (mkStatics false true true 6500 (Some false))
            (mkScript [7500; 9000; 9100] [HIGH; HIGH; LOW; LOW] [] [HIGH])
            [].

(** A paused game. *)
Definition paused_game : Machine Script :=
  mkMachine (mkGlobals 1 600000 595000 5000 true false false)
            (mkStatics false false false 0 (Some true))
            (mkScript [900000; 900250] [LOW] [HIGH] [])
            [].

(** From power-on: the control button confirms ten minutes (first pass)
    and starts the clock at 2300 (second pass); White presses the own
    button at 7300 (third pass). *)
Definition first_moves : Script :=
  mkScript [2000; 2100; 2300; 2500; 2520; 7300; 7750]
           [LOW; LOW; HIGH] [HIGH; HIGH; LOW] [HIGH].

(** The setup menu at power-on, with the control button pressed. *)
Definition confirming (i : Z) : Machine Script :=
  mkMachine (mkGlobals i 600000 600000 0 true false true)
            (mkStatics true false false 0 None)
            (mkScript [2000] [LOW] [] [])
            [].

(** ** Further vocabulary *)

Section MoreObservations.

Context {W : Type} {board : Board W}.
Variable variant : Variant.

(** What holds between the variables at the top of every pass of [loop],
    besides [Inv]: [wasSetup] repeats [isSetup]; the clock is stopped in
    the setup mode; [lastTurn], once initialised, is the player to move;
    [lastFinalSecondBeep] is an [unsigned long]. *)
Definition Sync (m : Machine W) : Prop :=
  wasSetup (statics m) = isSetup (globals m) /\
  (isSetup (globals m) = true -> isRunning (globals m) = false) /\
  (lastTurn (statics m) = None \/
   lastTurn (statics m) = Some (isWhiteTurn (globals m))) /\
  is_ulong (lastFinalSecondBeep (statics m)).

(** The machine after [k] polls of the wait loop of [gameOver] that all
    read [HIGH]. *)
Fixpoint waited (k : nat) (m : Machine W) : Machine W :=
  match k with
  | O => m
  | S j => waited j (final (delay 50 (final (digitalRead CONTROL_BUTTON m))))
  end.



(** What [printFormattedTime] writes for [mins] minutes and [secs]
    seconds. *)
Definition clockFace (mins secs : Z) : list Output :=
  (if mins <? 10 then [LcdPrint "0"] else [])
  ++ [LcdPrintInt mins; LcdPrint ":"]
  ++ (if secs <? 10 then [LcdPrint "0"] else [])
  ++ [LcdPrintInt secs].

(** The test of a warning of [loop] on the variables after [handleGame]
    and the flag before. *)
Definition warningDue (limit : Z) (g : Globals) (flag : bool) : bool :=
  isRunning g && (currentPlayerTime g <=? limit) && negb flag.

End MoreObservations.

(** *** More concrete machines *)

(** The setup menu on the last option (60 min), with Black's button
    pressed: the selection wraps to the first option. *)
Definition browsing : Machine Script :=
  mkMachine (mkGlobals 3 600000 600000 2000 true false true)
            (mkStatics true false false 0 None)
            (mkScript [] [HIGH] [HIGH] [LOW])
            [].

(** A game over whose restart comes at the third poll. *)
Definition flag_fallen : Machine Script :=
  mkMachine (mkGlobals 1 0 200000 7500 false true false)
            (mkStatics false true true 6500 (Some false))
            (mkScript [9000] [HIGH; HIGH; LOW] [] [])
            [].

(** A running game whose clock is read 20 ms, then 50 ms after the last
    update. *)
Definition two_updates : Machine Script :=
  mkMachine (mkGlobals 1 600000 600000 5000 true true false)
            (mkStatics false false false 0 (Some true))
            (mkScript [5020; 5050] [] [] [])
            [].

(** A running game just before [millis] rolls over: the last update was
    at 2^32 - 100, the next reading is 150. *)
Definition rollover : Machine Script :=
  mkMachine (mkGlobals 1 600000 600000 4294967196 true true false)
            (mkStatics false false false 0 (Some true))
            (mkScript [150] [] [] [])
            [].

(** A running game in which the control button pauses the clock while
    both players press their buttons. *)
Definition pausing : Machine Script :=
  mkMachine (mkGlobals 1 600000 595000 5000 true true false)
            (mkStatics false false false 0 (Some true))
            (mkScript [9000; 9300] [LOW] [LOW] [LOW])
            [].


(** ** The buzzer helpers

    What a [Beep] output stands for: each helper drives the buzzer pin
    through [digitalWrite], [delayMicroseconds] and [delay]. *)

Inductive BuzzerStep : Type :=
| BuzzerWrite (lv : Level)
| WaitMicroseconds (us : Z)
| WaitMilliseconds (ms : Z).

(** [for (int i = 0; i < n; i++)] over one period of the tone, [half]
    microseconds high and [half] low. *)
Fixpoint toneCycles (n : nat) (half : Z) : list BuzzerStep :=
  match n with
  | O => []
  | S k =>
      [BuzzerWrite HIGH; WaitMicroseconds half;
       BuzzerWrite LOW; WaitMicroseconds half]
      ++ toneCycles k half
  end.

(** [for (int j = 0; j < bursts; j++) { tone; delay(100); }] *)
Fixpoint toneBursts (bursts n : nat) (half : Z) : list BuzzerStep :=
  match bursts with
  | O => []
  | S k =>
      toneCycles n half ++ [WaitMilliseconds 100] ++ toneBursts k n half
  end.

Definition playStartupBeep : list BuzzerStep := toneBursts 2 50 500.
Definition playStartBeep : list BuzzerStep := toneBursts 1 50 500.
Definition playPauseBeep : list BuzzerStep := toneBursts 2 50 500.
Definition playWarningBeep : list BuzzerStep := toneCycles 50 500.
Definition playFinalSecondsBeep : list BuzzerStep := toneCycles 100 250.

(** The helper behind each [Beep] output. *)
Definition buzz (sig : Signal) : list BuzzerStep :=
  match sig with
  | StartupBeep => playStartupBeep
  | RunStarted => playStartBeep
  | RunPaused => playPauseBeep
  | WarningOneMinute | WarningThirtySeconds => playWarningBeep
  | FinalCountdownBeep => playFinalSecondsBeep
  end.

(** The level of the buzzer pin after some steps, and the time they
    take, in microseconds. *)
Fixpoint pinAfter (lv : Level) (l : list BuzzerStep) : Level :=
  match l with
  | [] => lv
  | BuzzerWrite lv' :: l' => pinAfter lv' l'
  | _ :: l' => pinAfter lv l'
  end.

Fixpoint duration (l : list BuzzerStep) : Z :=
  match l with
  | [] => 0
  | BuzzerWrite _ :: l' => duration l'
  | WaitMicroseconds us :: l' => us + duration l'
  | WaitMilliseconds ms :: l' => 1000 * ms + duration l'
  end.

(** The time the pin is held [HIGH], in microseconds, starting from the
    level [lv]. *)
Fixpoint highTime (lv : Level) (l : list BuzzerStep) : Z :=
  match l with
  | [] => 0
  | BuzzerWrite lv' :: l' => highTime lv' l'
  | WaitMicroseconds us :: l' =>
      (if is_low lv then 0 else us) + highTime lv l'
  | WaitMilliseconds ms :: l' =>
      (if is_low lv then 0 else 1000 * ms) + highTime lv l'
  end.

(** * Theorems *)

Section Theory.

Context {W : Type} {board : Board W}.
Variable variant : Variant.
Implicit Type m : Machine W.

(** ** The monad *)

Lemma bind_done {A B} (c : M W A) (k : A -> M W B) m a m' :
  c m = Done a m' -> bind c k m = k a m'.
Proof. intros H; unfold bind; now rewrite H. Qed.

Lemma bind_blocked {A B} (c : M W A) (k : A -> M W B) m m' :
  c m = Blocked m' -> bind c k m = Blocked m'.
Proof. intros H; unfold bind; now rewrite H. Qed.

Lemma final_seq {A B} (c : M W A) (k : A -> M W B) m a :
  c m = Done a (final (c m)) ->
  final (bind c k m) = final (k a (final (c m))).
Proof. intros H; unfold bind; now rewrite H. Qed.

(** ** Properties kept by a computation *)

Section Keeps.

Variable I : Globals -> Statics -> list Output -> Prop.

Lemma keeps_ret {A} (a : A) : keeps I (ret (W := W) a).
Proof. intros m H; exact H. Qed.

Lemma keeps_bind {A B} (c : M W A) (k : A -> M W B) :
  keeps I c -> (forall a, keeps I (k a)) -> keeps I (bind c k).
Proof.
  intros Hc Hk m H. unfold bind.
  specialize (Hc m H). destruct (c m) as [a m'|m']; simpl in *.
  - now apply Hk.
  - exact Hc.
Qed.

Lemma keeps_when b (c : M W unit) : keeps I c -> keeps I (when b c).
Proof. destruct b; simpl; auto using keeps_ret. Qed.

Lemma keeps_getG : keeps I (getG (W := W)).
Proof. intros m H; exact H. Qed.

Lemma keeps_getS : keeps I (getS (W := W)).
Proof. intros m H; exact H. Qed.

Lemma keeps_millis : keeps I millis.
Proof.
  intros m H; unfold millis.
  destruct (board_millis (world m)); exact H.
Qed.

Lemma keeps_digitalRead pin : keeps I (digitalRead pin).
Proof.
  intros m H; unfold digitalRead.
  destruct (board_digitalRead pin (world m)); exact H.
Qed.

Lemma keeps_emit o :
  (forall g s l, I g s l -> I g s (l ++ [o])) -> keeps I (emit o).
Proof. intros Ho m H; simpl; now apply Ho. Qed.

Lemma keeps_modifyG f :
  (forall g s l, I g s l -> I (f g) s l) -> keeps I (modifyG (W := W) f).
Proof. intros Hf m H; simpl; now apply Hf. Qed.

Lemma keeps_modifyS f :
  (forall g s l, I g s l -> I g (f s) l) -> keeps I (modifyS (W := W) f).
Proof. intros Hf m H; simpl; now apply Hf. Qed.

End Keeps.

Ltac unfold_outputs :=
  unfold delay, lcd_print, lcd_printInt, lcd_setCursor, play.

(** Splits a [keeps] goal along the structure of the computation; [side]
    solves the conditions on the outputs and assignments met on the way. *)
Ltac keeps_go side :=
  unfold_outputs;
  repeat match goal with
    | |- keeps _ (ret _) => apply keeps_ret
    | |- keeps _ getG => apply keeps_getG
    | |- keeps _ getS => apply keeps_getS
    | |- keeps _ millis => apply keeps_millis
    | |- keeps _ (digitalRead _) => apply keeps_digitalRead
    | |- keeps _ (when _ _) => apply keeps_when
    | |- keeps _ (bind _ _) => apply keeps_bind; [ | intros ? ]
    | |- keeps _ (emit _) => apply keeps_emit; side
    | |- keeps _ (modifyG _) => apply keeps_modifyG; side
    | |- keeps _ (modifyS _) => apply keeps_modifyS; side
    | |- keeps _ (match ?x with _ => _ end) => destruct x
    end.

(** ** Computations that always return *)

Lemma total_ret {A} (a : A) : total (ret (W := W) a).
Proof. intros m; now exists a. Qed.

Lemma total_bind {A B} (c : M W A) (k : A -> M W B) :
  total c -> (forall a, total (k a)) -> total (bind c k).
Proof.
  intros Hc Hk m. destruct (Hc m) as [a Ha].
  unfold bind. rewrite Ha. apply Hk.
Qed.

Lemma total_when b (c : M W unit) : total c -> total (when b c).
Proof. destruct b; simpl; auto using total_ret. Qed.

Lemma total_getG : total (getG (W := W)).
Proof. intros m; now exists (globals m). Qed.

Lemma total_getS : total (getS (W := W)).
Proof. intros m; now exists (statics m). Qed.

Lemma total_millis : total millis.
Proof.
  intros m; unfold millis.
  destruct (board_millis (world m)) as [t w]; now exists (to_ulong t).
Qed.

Lemma total_digitalRead pin : total (digitalRead pin).
Proof.
  intros m; unfold digitalRead.
  destruct (board_digitalRead pin (world m)) as [lv w]; now exists lv.
Qed.

Lemma total_emit o : total (emit o).
Proof. intros m; now exists tt. Qed.

Lemma total_modifyG f : total (modifyG (W := W) f).
Proof. intros m; now exists tt. Qed.

Lemma total_modifyS f : total (modifyS (W := W) f).
Proof. intros m; now exists tt. Qed.

Ltac total_go :=
  unfold_outputs;
  repeat match goal with
    | |- total (ret _) => apply total_ret
    | |- total getG => apply total_getG
    | |- total getS => apply total_getS
    | |- total millis => apply total_millis
    | |- total (digitalRead _) => apply total_digitalRead
    | |- total (when _ _) => apply total_when
    | |- total (bind _ _) => apply total_bind; [ | intros ? ]
    | |- total (emit _) => apply total_emit
    | |- total (modifyG _) => apply total_modifyG
    | |- total (modifyS _) => apply total_modifyS
    | |- total (match ?x with _ => _ end) => destruct x
    end.

Lemma total_unit (c : M W unit) m : total c -> c m = Done tt (final (c m)).
Proof. intros H; destruct (H m) as [[] E]; exact E. Qed.

Lemma total_resetTimes : total (W := W) resetTimes.
Proof. unfold resetTimes; total_go. Qed.

Lemma total_printFormattedTime t : total (W := W) (printFormattedTime t).
Proof. unfold printFormattedTime; total_go. Qed.

Lemma total_displayTimes : total (displayTimes variant).
Proof.
  unfold displayTimes; total_go; apply total_printFormattedTime.
Qed.

Lemma total_updateTurnDisplay : total (updateTurnDisplay variant).
Proof. unfold updateTurnDisplay; total_go. Qed.

Lemma total_initLastTurn : total (W := W) initLastTurn.
Proof. unfold initLastTurn; total_go. Qed.

Lemma total_toggleRun : total (toggleRun variant).
Proof. unfold toggleRun; total_go. Qed.

Lemma total_updateTime : total (W := W) updateTime.
Proof. unfold updateTime; total_go. Qed.

Lemma total_switchTurn : total (switchTurn variant).
Proof. unfold switchTurn; total_go. Qed.

Lemma total_gameStep : total (gameStep variant).
Proof.
  unfold gameStep; total_go;
    auto using total_initLastTurn, total_toggleRun, total_updateTime,
      total_switchTurn, total_updateTurnDisplay, total_displayTimes.
Qed.

Lemma total_announce : total (announce variant).
Proof. unfold announce; total_go. Qed.

Lemma total_handleSetup : total (handleSetup variant).
Proof.
  unfold handleSetup, showTimeOption, nextOption, previousOption,
    confirmSetup; total_go; apply total_resetTimes.
Qed.

Lemma total_finalSecondsLoop n t : total (W := W) (finalSecondsLoop n t).
Proof. induction n; simpl; total_go; exact IHn. Qed.

Lemma total_warnings : total (W := W) warnings.
Proof.
  unfold warnings, oneMinuteWarning, thirtySecondWarning, finalSeconds;
    total_go; apply total_finalSecondsLoop.
Qed.


(** ** What each block does to the variables *)

Ltac same_vars := intros; assumption.

Lemma printFormattedTime_vars (P : Globals -> Statics -> Prop) t :
  keeps (W := W) (fun g s _ => P g s) (printFormattedTime t).
Proof. unfold printFormattedTime; keeps_go same_vars. Qed.

Lemma displayTimes_vars (P : Globals -> Statics -> Prop) :
  keeps (fun g s _ => P g s) (displayTimes variant).
Proof.
  unfold displayTimes; keeps_go same_vars; apply printFormattedTime_vars.
Qed.

Lemma updateTurnDisplay_vars (P : Globals -> Statics -> Prop) :
  keeps (fun g s _ => P g s) (updateTurnDisplay variant).
Proof. unfold updateTurnDisplay; keeps_go same_vars. Qed.

Lemma initLastTurn_globals m :
  globals (final (initLastTurn m)) = globals m /\
  world (final (initLastTurn m)) = world m /\
  out (final (initLastTurn m)) = out m.
Proof.
  unfold initLastTurn, bind, getS, getG, modifyS, ret; simpl.
  destruct (lastTurn (statics m)); simpl; auto.
Qed.

Lemma resetTimes_spec m :
  globals (final (resetTimes m)) = reset (clock m) (globals m) /\
  statics (final (resetTimes m)) = statics m /\
  out (final (resetTimes m)) = out m.
Proof.
  unfold resetTimes, bind, getG, modifyG, millis, clock; simpl.
  destruct (board_millis (world m)) as [t w]; simpl; auto.
Qed.

Lemma toggleRun_spec m :
  globals (final (toggleRun variant m))
  = toggled (reading CONTROL_BUTTON m)
            (clock (final (digitalRead CONTROL_BUTTON m))) (globals m) /\
  statics (final (toggleRun variant m)) = statics m.
Proof.
  unfold toggleRun, toggled, reading, clock, bind, digitalRead, millis,
    modifyG, getG, when, play, delay, emit, ret; simpl.
  destruct (board_digitalRead CONTROL_BUTTON (world m)) as [lv w]; simpl.
  destruct lv; simpl; auto.
  destruct (board_millis w) as [t w']; simpl.
  destruct variant; simpl; auto.
  destruct (negb (isRunning (globals m))); simpl; auto.
Qed.

Lemma updateTime_spec m :
  globals (final (updateTime m)) = advance (clock m) (globals m) /\
  statics (final (updateTime m)) = statics m /\
  out (final (updateTime m)) = out m.
Proof.
  unfold updateTime, clock, bind, millis, modifyG; simpl.
  destruct (board_millis (world m)) as [t w]; simpl; auto.
Qed.

Lemma switchTurn_spec m :
  globals (final (switchTurn variant m))
  = switched (reading (button variant (active (globals m))) m) (globals m) /\
  statics (final (switchTurn variant m)) = statics m.
Proof.
  unfold switchTurn, switched, reading, button, active, bind, getG,
    digitalRead, modifyG, when, delay, emit, ret; simpl.
  destruct (isWhiteTurn (globals m)) eqn:E; simpl.
  - destruct (board_digitalRead (W_BUTTON variant) (world m)) as [lv w];
      simpl; destruct lv; simpl; auto.
  - destruct (board_digitalRead B_BUTTON (world m)) as [lv w];
      simpl; destruct lv; simpl; auto.
Qed.

(** [handleGame] up to its game-end test: the variables are those left by
    the control-button block, the time update and the player switches. *)
Lemma gameStep_globals m :
  globals (final (gameStep variant m))
  = if isRunning (globals (afterToggle variant m))
    then globals (final (switchTurn variant (afterUpdate variant m)))
    else globals (afterToggle variant m).
Proof.
  unfold gameStep, afterUpdate, afterToggle.
  rewrite (final_seq initLastTurn _ m tt)
    by (apply total_unit, total_initLastTurn).
  set (m0 := final (initLastTurn m)).
  rewrite (final_seq (toggleRun variant) _ m0 tt)
    by (apply total_unit, total_toggleRun).
  set (m1 := final (toggleRun variant m0)).
  rewrite (final_seq getG _ m1 (globals m1)) by reflexivity.
  change (final (getG m1)) with m1.
  set (body := when (isRunning (globals m1))
                 (updateTime;; switchTurn variant)).
  assert (Hb : total body) by
    (unfold body; total_go;
     auto using total_updateTime, total_switchTurn).
  rewrite (final_seq body _ m1 tt) by (apply total_unit, Hb).
  set (m2 := final (body m1)).
  rewrite (final_seq getG _ m2 (globals m2)) by reflexivity.
  change (final (getG m2)) with m2.
  rewrite (final_seq getS _ m2 (statics m2)) by reflexivity.
  change (final (getS m2)) with m2.
  set (disp := when (turnChanged (globals m2) (statics m2))
                 (modifyS (set_lastTurn (Some (isWhiteTurn (globals m2))));;
                  updateTurnDisplay variant)).
  assert (Hd : total disp) by
    (unfold disp; total_go; apply total_updateTurnDisplay).
  rewrite (final_seq disp _ m2 tt) by (apply total_unit, Hd).
  assert (Hg : globals (final (displayTimes variant (final (disp m2))))
               = globals m2).
  { apply (displayTimes_vars (fun g _ => g = globals m2)).
    assert (Hk : keeps (fun g _ _ => g = globals m2) disp).
    { unfold disp. apply keeps_when.
      apply keeps_bind; [ apply keeps_modifyS; same_vars | intros _ ].
      apply (updateTurnDisplay_vars (fun g _ => g = globals m2)). }
    exact (Hk m2 eq_refl). }
  rewrite Hg. unfold m2, body.
  destruct (isRunning (globals m1)); simpl; [ | reflexivity ].
  rewrite (final_seq updateTime _ m1 tt)
    by (apply total_unit, total_updateTime).
  reflexivity.
Qed.

Lemma handleGame_eq polls m :
  handleGame variant polls m
  = if gameEnded (globals (final (gameStep variant m)))
    then gameOver variant polls (final (gameStep variant m))
    else Done tt (final (gameStep variant m)).
Proof.
  unfold handleGame.
  rewrite (bind_done _ _ m tt (final (gameStep variant m)))
    by (apply total_unit, total_gameStep).
  unfold bind, getG, when, ret; simpl.
  now destruct (gameEnded (globals (final (gameStep variant m)))).
Qed.

(** ** [gameOver] *)

Lemma announce_spec m :
  announce variant m = Done tt (final (announce variant m)) /\
  globals (final (announce variant m)) = set_isRunning false (globals m) /\
  statics (final (announce variant m)) = statics m /\
  out (final (announce variant m))
  = out m ++ announcement variant (globals m).
Proof.
  split; [ apply total_unit, total_announce | ].
  unfold announce, announcement, winner, bind, modifyG, getG,
    lcd_setCursor, lcd_print, emit, ret; simpl.
  destruct (whiteTime (globals m) =? 0); destruct variant; simpl;
    repeat rewrite <- app_assoc; simpl; auto.
Qed.

Lemma waitRestart_vars (P : Globals -> Statics -> Prop) polls :
  keeps (fun g s _ => P g s) (waitRestart polls).
Proof.
  induction polls as [|k IH]; simpl.
  - intros m H; exact H.
  - keeps_go same_vars. exact IH.
Qed.

Lemma gameOver_eq polls m :
  gameOver variant polls m
  = match waitRestart polls (final (announce variant m)) with
    | Done _ m2 =>
        resetTimes (mkMachine (set_isSetup true (globals m2)) (statics m2)
                              (world m2) (out m2))
    | Blocked m2 => Blocked m2
    end.
Proof.
  destruct (announce_spec m) as (Ha & _).
  unfold gameOver. rewrite (bind_done _ _ m tt _ Ha).
  unfold bind, modifyG.
  now destruct (waitRestart polls (final (announce variant m))).
Qed.

(** While [gameOver] waits, and when it returns: the clocks stay as they
    are until the control button is pressed, and are then set anew. *)
Lemma gameOver_spec polls m :
  let r := gameOver variant polls m in
  isRunning (globals (final r)) = false /\
  isWhiteTurn (globals (final r)) = isWhiteTurn (globals m) /\
  currentTimeOption (globals (final r)) = currentTimeOption (globals m) /\
  statics (final r) = statics m /\
  (returned r = false ->
   whiteTime (globals (final r)) = whiteTime (globals m) /\
   blackTime (globals (final r)) = blackTime (globals m) /\
   lastUpdateTime (globals (final r)) = lastUpdateTime (globals m) /\
   isSetup (globals (final r)) = isSetup (globals m)) /\
  (returned r = true ->
   whiteTime (globals (final r)) = full_time (globals m) /\
   blackTime (globals (final r)) = full_time (globals m) /\
   is_ulong (lastUpdateTime (globals (final r))) /\
   isSetup (globals (final r)) = true).
Proof.
  intros r; subst r. rewrite gameOver_eq.
  destruct (announce_spec m) as (_ & Hg & Hs & _).
  set (m1 := final (announce variant m)) in *.
  pose proof (waitRestart_vars
                (fun g s => g = globals m1 /\ s = statics m1) polls m1
                (conj eq_refl eq_refl)) as Hw.
  simpl in Hw.
  destruct (waitRestart polls m1) as [[] m2|m2]; simpl in Hw;
    destruct Hw as [Hg2 Hs2].
  - match goal with
    | |- context [resetTimes ?x] => set (m3 := x)
    end.
    destruct (resetTimes_spec m3) as (Hr & Hrs & _).
    assert (Hret : returned (resetTimes m3) = true).
    { destruct (total_resetTimes m3) as [a E]; now rewrite E. }
    rewrite Hret, Hr, Hrs. unfold m3; simpl. rewrite Hg2, Hs2, Hg, Hs.
    unfold reset, full_time, clock, to_ulong, is_ulong, ULONG_MOD; simpl.
    repeat split; auto; try discriminate.
    + apply Z.mod_pos_bound; lia.
    + apply Z.mod_pos_bound; lia.
  - simpl. rewrite Hg2, Hs2, Hg, Hs; simpl.
    repeat split; auto; discriminate.
Qed.

(** [gameOver] returns as soon as the control button reads [LOW]. *)
Lemma waitRestart_returns polls m :
  reading CONTROL_BUTTON m = LOW ->
  returned (waitRestart (S polls) m) = true.
Proof.
  unfold reading; simpl. unfold bind, digitalRead, ret.
  destruct (board_digitalRead CONTROL_BUTTON (world m)) as [lv w]; simpl.
  now intros ->.
Qed.

(** ** The points of [handleGame] *)

Lemma afterToggle_spec m :
  globals (afterToggle variant m)
  = toggled (reading CONTROL_BUTTON m)
            (clock (final (digitalRead CONTROL_BUTTON m))) (globals m) /\
  hasOneMinuteWarning (statics (afterToggle variant m))
  = hasOneMinuteWarning (statics m).
Proof.
  unfold afterToggle.
  destruct (initLastTurn_globals m) as (Hg & Hw & _).
  destruct (toggleRun_spec (final (initLastTurn m))) as (Ht & Hs).
  rewrite Ht, Hs, Hg. unfold reading, clock, digitalRead. rewrite Hw.
  split;
    [ now destruct (board_digitalRead CONTROL_BUTTON (world m)) | ].
  unfold initLastTurn, bind, getS, getG, modifyS, ret; simpl.
  now destruct (lastTurn (statics m)).
Qed.

Lemma afterUpdate_spec m :
  globals (afterUpdate variant m)
  = advance (clock (afterToggle variant m)) (globals (afterToggle variant m)).
Proof. unfold afterUpdate. apply updateTime_spec. Qed.

(** The clocks and the turn are untouched by the setters of the other
    variables. *)
Lemma switched_clocks b g :
  whiteTime (switched b g) = whiteTime g /\
  blackTime (switched b g) = blackTime g /\
  lastUpdateTime (switched b g) = lastUpdateTime g /\
  isRunning (switched b g) = isRunning g.
Proof. unfold switched; destruct (is_low b); simpl; auto. Qed.

Lemma to_ulong_small z : is_ulong z -> to_ulong z = z.
Proof. unfold is_ulong, to_ulong; intros H; now apply Z.mod_small. Qed.

Lemma to_ulong_range z : is_ulong (to_ulong z).
Proof.
  unfold is_ulong, to_ulong, ULONG_MOD; apply Z.mod_pos_bound; lia.
Qed.

Lemma clock_range m : is_ulong (clock m).
Proof. apply to_ulong_range. Qed.

Lemma debit_spec e t :
  is_ulong t -> 0 <= e ->
  debit e t = (if e >=? t then 0 else t - e) /\ 0 <= debit e t <= t.
Proof.
  unfold debit, is_ulong; intros Ht He.
  destruct (e >=? t) eqn:E.
  - split; [ reflexivity | lia ].
  - rewrite Z.geb_leb in E. apply Z.leb_gt in E.
    rewrite to_ulong_small by (unfold is_ulong; lia). lia.
Qed.

Lemma debit_range e t : is_ulong (debit e t).
Proof.
  unfold debit. destruct (e >=? t).
  - unfold is_ulong, ULONG_MOD; lia.
  - apply to_ulong_range.
Qed.

Lemma debit_zero t : is_ulong t -> debit 0 t = t.
Proof.
  intros Ht. unfold debit. destruct (0 >=? t) eqn:E.
  - rewrite Z.geb_leb in E. apply Z.leb_le in E.
    unfold is_ulong in Ht; lia.
  - replace (t - 0) with t by lia. now apply to_ulong_small.
Qed.

Lemma advance_fields now g :
  isWhiteTurn (advance now g) = isWhiteTurn g /\
  isRunning (advance now g) = isRunning g /\
  isSetup (advance now g) = isSetup g /\
  currentTimeOption (advance now g) = currentTimeOption g /\
  lastUpdateTime (advance now g) = now.
Proof.
  unfold advance; destruct (isWhiteTurn g) eqn:E; simpl; rewrite ?E;
    repeat split.
Qed.

(** ** The claims *)

(** C1 (as amended).  While the clock is running, pressing the button of
    the player to move hands the turn to the other player; as long as that
    button is released the turn stays where it is, whatever the button of
    the other player does.  (The specification has the two buttons the
    other way round.) *)
Theorem switchTurn_by_active_player polls m :
  isRunning (globals m) = true ->
  reading CONTROL_BUTTON m = HIGH ->
  let p := active (globals m) in
  let m2 := afterUpdate variant m in
  let turn' :=
    isWhiteTurn (globals (final (handleGame variant polls m))) in
  (reading (button variant p) m2 = LOW ->
   turn' = negb (isWhiteTurn (globals m))) /\
  (reading (button variant p) m2 = HIGH ->
   turn' = isWhiteTurn (globals m)).
Proof.
  intros Hrun Hctl p m2 turn'.
  assert (Ht : turn' = isWhiteTurn (globals (final (gameStep variant m)))).
  { unfold turn'. rewrite handleGame_eq.
    destruct (gameEnded (globals (final (gameStep variant m))));
      [ | reflexivity ].
    apply (gameOver_spec polls (final (gameStep variant m))). }
  destruct (afterToggle_spec m) as [Hg1 _].
  rewrite Hctl in Hg1. unfold toggled in Hg1. simpl in Hg1.
  pose proof (afterUpdate_spec m) as Hg2. rewrite Hg1 in Hg2.
  rewrite gameStep_globals, Hg1, Hrun in Ht.
  destruct (switchTurn_spec (afterUpdate variant m)) as [Hsw _].
  rewrite Hsw, Hg2 in Ht.
  assert (Hact : active (advance (clock (afterToggle variant m)) (globals m))
                 = p).
  { unfold active, p.
    now rewrite (proj1 (advance_fields _ _)). }
  rewrite Hact in Ht. fold m2 in Ht.
  split; intros Hb; rewrite Hb in Ht; rewrite Ht; unfold switched; simpl.
  - destruct (isWhiteTurn (globals m)) eqn:E; simpl; now rewrite E.
  - destruct (isWhiteTurn (globals m)) eqn:E; simpl; now rewrite E.
Qed.

(** C3.  When [handleGame] finds the clock running and [millis] has not
    gone back, the time update takes [elapsed = now - lastUpdateTime] off
    the clock of the player to move and stops at zero: the new value is 0
    when [elapsed >= remaining] and [remaining - elapsed] otherwise, so it
    lies between 0 and the old value.  The other clock is untouched, and
    these are the clocks that the game-end test of the same pass sees. *)
Theorem advance_debits_with_floor m :
  let m1 := afterToggle variant m in
  let g := globals m1 in
  let now := clock m1 in
  let p := active g in
  isRunning g = true ->
  is_ulong (remaining p g) ->
  is_ulong (lastUpdateTime g) ->
  lastUpdateTime g <= now ->
  let elapsed := now - lastUpdateTime g in
  let g' := globals (afterUpdate variant m) in
  remaining p g'
  = (if elapsed >=? remaining p g then 0 else remaining p g - elapsed) /\
  0 <= remaining p g' <= remaining p g /\
  remaining (other p) g' = remaining (other p) g /\
  lastUpdateTime g' = now /\
  whiteTime (globals (final (gameStep variant m))) = whiteTime g' /\
  blackTime (globals (final (gameStep variant m))) = blackTime g'.
Proof.
  intros m1 g now p Hrun Hrem Hlast Hle elapsed g'.
  assert (Hg' : g' = advance now g) by apply afterUpdate_spec.
  assert (He : to_ulong (now - lastUpdateTime g) = elapsed).
  { apply to_ulong_small. pose proof (clock_range m1) as Hc.
    fold now in Hc. unfold is_ulong in *; unfold elapsed; lia. }
  assert (Hstep : whiteTime (globals (final (gameStep variant m)))
                  = whiteTime g' /\
                  blackTime (globals (final (gameStep variant m)))
                  = blackTime g').
  { rewrite gameStep_globals. fold m1; fold g. rewrite Hrun.
    destruct (switchTurn_spec (afterUpdate variant m)) as [Hsw _].
    rewrite Hsw. fold g'.
    destruct (switched_clocks
                (reading (button variant (active g')) (afterUpdate variant m))
                g') as (Hw & Hb & _).
    now rewrite Hw, Hb. }
  assert (H0 : 0 <= elapsed) by (unfold elapsed; lia).
  rewrite Hg'. unfold advance. rewrite He.
  unfold p, active, remaining in *.
  destruct (isWhiteTurn g) eqn:Et; simpl;
    destruct (debit_spec elapsed _ Hrem H0) as [Hd Hr];
    rewrite <- Hd; rewrite Hg' in Hstep; unfold advance in Hstep;
    rewrite He, Et in Hstep; simpl in Hstep; repeat split; try tauto; lia.
Qed.

(** C7.  A second time update that reads the same [millis] value as the
    one just before it computes an elapsed time of 0 and changes none of
    the variables, so neither clock is debited again. *)
Theorem advance_twice_same_now m :
  let m1 := final (updateTime m) in
  clock m1 = clock m ->
  to_ulong (clock m1 - lastUpdateTime (globals m1)) = 0 /\
  globals (final (updateTime m1)) = globals m1 /\
  whiteTime (globals (final (updateTime m1))) = whiteTime (globals m1) /\
  blackTime (globals (final (updateTime m1))) = blackTime (globals m1).
Proof.
  intros m1 Hsame.
  destruct (updateTime_spec m) as (Hg & _).
  destruct (updateTime_spec m1) as (Hg1 & _).
  fold m1 in Hg.
  assert (Hl : lastUpdateTime (globals m1) = clock m).
  { rewrite Hg. apply advance_fields. }
  assert (He : to_ulong (clock m1 - lastUpdateTime (globals m1)) = 0).
  { rewrite Hl, Hsame, Z.sub_diag. reflexivity. }
  assert (Hsameg : globals (final (updateTime m1)) = globals m1).
  { rewrite Hg1. unfold advance at 1. rewrite He.
    assert (Hw : is_ulong (whiteTime (globals m1)) \/ isWhiteTurn (globals m1) = false).
    { rewrite Hg. unfold advance. destruct (isWhiteTurn (globals m)) eqn:E;
        simpl; rewrite ?E; auto. left; apply debit_range. }
    assert (Hb : is_ulong (blackTime (globals m1)) \/ isWhiteTurn (globals m1) = true).
    { rewrite Hg. unfold advance. destruct (isWhiteTurn (globals m)) eqn:E;
        simpl; rewrite ?E; auto. left; apply debit_range. }
    rewrite Hsame, <- Hl.
    destruct (globals m1) as [o b w l t r s]; simpl in *.
    destruct t; simpl.
    - destruct Hw as [Hw|Hw]; [ | discriminate ].
      now rewrite debit_zero.
    - destruct Hb as [Hb|Hb]; [ | discriminate ].
      now rewrite debit_zero. }
  rewrite Hsameg. auto.
Qed.

(** The variables when [handleGame] reaches its game-end test. *)
Lemma gameStep_vars m :
  let m1 := afterToggle variant m in
  let g1 := toggled (reading CONTROL_BUTTON m)
                    (clock (final (digitalRead CONTROL_BUTTON m)))
                    (globals m) in
  globals (final (gameStep variant m))
  = if isRunning g1
    then switched
           (reading (button variant (active (globals m)))
                    (afterUpdate variant m))
           (advance (clock m1) g1)
    else g1.
Proof.
  intros m1 g1.
  destruct (afterToggle_spec m) as [Hg1 _]. fold g1 in Hg1.
  rewrite gameStep_globals, Hg1.
  destruct (isRunning g1); [ | reflexivity ].
  destruct (switchTurn_spec (afterUpdate variant m)) as [Hsw _].
  rewrite Hsw, afterUpdate_spec, Hg1.
  replace (active (advance (clock (afterToggle variant m)) g1))
    with (active (globals m)); [ reflexivity | ].
  unfold active. rewrite (proj1 (advance_fields _ _)).
  unfold g1, toggled. now destruct (is_low (reading CONTROL_BUTTON m)).
Qed.

Lemma toggled_fields c t g :
  whiteTime (toggled c t g) = whiteTime g /\
  blackTime (toggled c t g) = blackTime g /\
  isWhiteTurn (toggled c t g) = isWhiteTurn g /\
  currentTimeOption (toggled c t g) = currentTimeOption g /\
  isSetup (toggled c t g) = isSetup g.
Proof. unfold toggled; destruct (is_low c); simpl; auto. Qed.

(** The log of [gameOver]: the announcement, then only the delays of the
    wait loop. *)
Lemma waitRestart_log base polls :
  keeps (W := W)
        (fun _ _ l => exists l', l = base ++ l' /\ Forall (eq (Delay 50)) l')
        (waitRestart polls).
Proof.
  induction polls as [|k IH]; simpl.
  - intros m H; exact H.
  - assert (Hd : forall (g : Globals) (s : Statics) l,
               (exists l', l = base ++ l' /\ Forall (eq (Delay 50)) l') ->
               exists l', l ++ [Delay 50] = base ++ l'
                          /\ Forall (eq (Delay 50)) l').
    { intros _ _ l (l' & -> & Hl). exists (l' ++ [Delay 50]).
      rewrite app_assoc. split; [ reflexivity | ].
      apply Forall_app; split; [ exact Hl | now constructor ]. }
    keeps_go ltac:(exact Hd). exact IH.
Qed.

Lemma gameOver_out polls m :
  exists l',
    out (final (gameOver variant polls m))
    = out m ++ announcement variant (globals m) ++ l' /\
    Forall (eq (Delay 50)) l'.
Proof.
  rewrite gameOver_eq.
  destruct (announce_spec m) as (_ & _ & _ & Ho).
  set (m1 := final (announce variant m)) in *.
  assert (H0 : exists l', out m1 = out m1 ++ l'
                          /\ Forall (eq (Delay 50)) l').
  { exists []. now rewrite app_nil_r. }
  pose proof (waitRestart_log (out m1) polls m1 H0) as (l' & Hl & HF).
  exists l'. split; [ | exact HF ].
  rewrite app_assoc, <- Ho.
  destruct (waitRestart polls m1) as [[] m2|m2]; cbn [final] in Hl |- *.
  - rewrite (proj2 (proj2 (resetTimes_spec _))). exact Hl.
  - exact Hl.
Qed.

Lemma winsMessage_in_announcement g :
  In (LcdPrint "Game Over!") (announcement variant g) /\
  In (LcdPrint (winsMessage (winner g))) (announcement variant g).
Proof. unfold announcement; simpl; auto 10. Qed.

Lemma emitted_app {A} (c : M W A) m l :
  out (final (c m)) = out m ++ l -> emitted c m = l.
Proof.
  unfold emitted; intros ->.
  induction (out m) as [|o log IH]; simpl; auto.
Qed.

(** The log only grows. *)
Ltac grows_side :=
  let l' := fresh "l'" in
  intros ? ? ? (l' & ->);
  match goal with
  | |- exists _, (_ ++ l') ++ [?o] = _ =>
      exists (l' ++ [o]); now rewrite app_assoc
  | _ => now exists l'
  end.

Lemma gameStep_grows m :
  exists l, out (final (gameStep variant m)) = out m ++ l.
Proof.
  assert (H : keeps (fun _ _ l => exists l', l = out m ++ l')
                    (gameStep variant)).
  { unfold gameStep, initLastTurn, toggleRun, updateTime, switchTurn,
      updateTurnDisplay, displayTimes, printFormattedTime.
    keeps_go grows_side. }
  apply H. exists []. now rewrite app_nil_r.
Qed.

(** The clocks when [handleGame] reaches its game-end test: the clock of
    the player who was not to move is untouched, the other one is either
    untouched or debited. *)
Lemma gameStep_clocks m :
  let g := globals m in
  let g' := globals (final (gameStep variant m)) in
  remaining (other (active g)) g' = remaining (other (active g)) g /\
  (remaining (active g) g' = remaining (active g) g \/
   isRunning g' = true /\
   exists e, remaining (active g) g' = debit e (remaining (active g) g)) /\
  currentTimeOption g' = currentTimeOption g /\
  isSetup g' = isSetup g /\
  (is_ulong (lastUpdateTime g) -> is_ulong (lastUpdateTime g')).
Proof.
  intros g g'. unfold g'. rewrite gameStep_vars.
  set (c := reading CONTROL_BUTTON m).
  set (t := clock (final (digitalRead CONTROL_BUTTON m))).
  set (now := clock (afterToggle variant m)).
  set (b := reading _ _).
  assert (Ht : is_ulong t) by apply clock_range.
  assert (Hn : is_ulong now) by apply clock_range.
  clearbody c t now b. fold g.
  unfold toggled, switched, advance, active, remaining.
  destruct g as [o bt wt lu turn run su]; simpl.
  destruct c, b, turn, run; simpl; repeat split; auto;
    try first [ left; reflexivity
              | right; split; [ reflexivity | eexists; reflexivity ]
              | unfold is_ulong in *; lia ].
Qed.

(** C2.  From a pass that starts with both clocks non-zero (as every pass
    does, see [reachable_Inv]): [handleGame] calls [gameOver] exactly when
    the clock of the player to move has reached 0 in this pass; the other
    clock is untouched; [gameOver] then stops the clock, writes "Game
    Over!" and names the other player as the winner; and while it waits
    for the control button both clocks stay as they are, whatever time
    goes by; when it returns the sketch is back in the setup mode. *)
Theorem flag_fall_ends_game polls m :
  Inv (globals m) ->
  let p := active (globals m) in
  let m1 := final (gameStep variant m) in
  let r := handleGame variant polls m in
  (gameEnded (globals m1) = true <-> remaining p (globals m1) = 0) /\
  remaining (other p) (globals m1) = remaining (other p) (globals m) /\
  (gameEnded (globals m1) = false -> r = Done tt m1) /\
  (gameEnded (globals m1) = true ->
   r = gameOver variant polls m1 /\
   winner (globals m1) = other p /\
   printed "Game Over!" (emitted (handleGame variant polls) m) /\
   printed (winsMessage (other p)) (emitted (handleGame variant polls) m) /\
   ~ printed (winsMessage p) (emitted (gameOver variant polls) m1) /\
   isRunning (globals (final r)) = false /\
   (returned r = false ->
    whiteTime (globals (final r)) = whiteTime (globals m1) /\
    blackTime (globals (final r)) = blackTime (globals m1)) /\
   (returned r = true -> isSetup (globals (final r)) = true)).
Proof.
  intros (_ & Hw & Hb & _) p m1 r.
  destruct (gameStep_clocks m) as (Hother & _).
  fold m1 p in Hother.
  assert (Hiff : gameEnded (globals m1) = true
                 <-> remaining p (globals m1) = 0).
  { unfold gameEnded. rewrite orb_true_iff, !Z.eqb_eq.
    unfold p, active, other, remaining in *.
    destruct (isWhiteTurn (globals m)); lia. }
  split; [ exact Hiff | ]. split; [ exact Hother | ].
  unfold r. rewrite handleGame_eq. fold m1.
  split; [ now intros -> | ]. intros Hend.
  assert (Hwin : winner (globals m1) = other p).
  { apply Hiff in Hend. unfold winner.
    unfold p, active, other, remaining in *.
    destruct (isWhiteTurn (globals m)).
    - now rewrite Hend.
    - destruct (whiteTime (globals m1) =? 0) eqn:E; [ | reflexivity ].
      apply Z.eqb_eq in E; lia. }
  destruct (gameOver_out polls m1) as (l' & Hout & Hdelays).
  destruct (gameStep_grows m) as (l0 & Hl0). fold m1 in Hl0.
  destruct (winsMessage_in_announcement (globals m1)) as [Hin1 Hin2].
  rewrite Hwin in Hin2.
  assert (Hem : emitted (handleGame variant polls) m
                = l0 ++ announcement variant (globals m1) ++ l').
  { apply emitted_app. rewrite handleGame_eq. fold m1.
    rewrite Hend, Hout, Hl0. now rewrite <- app_assoc. }
  rewrite Hend.
  destruct (gameOver_spec polls m1) as (Hrun & _ & _ & _ & Hblocked & Hret).
  split; [ reflexivity | ]. split; [ exact Hwin | ].
  split; [ unfold printed; rewrite Hem, !in_app_iff; auto | ].
  split; [ unfold printed; rewrite Hem, !in_app_iff; auto | ].
  split;
    [ | split;
        [ exact Hrun
        | split; [ intros H; split; now apply Hblocked
                 | intros H; now apply Hret ] ] ].
  unfold printed. rewrite (emitted_app _ _ _ Hout).
  rewrite in_app_iff. intros [Hin|Hin].
  - unfold announcement in Hin. rewrite Hwin in Hin.
    destruct p, variant; simpl in Hin;
      repeat (destruct Hin as [Hin|Hin]; try discriminate Hin);
      exact Hin.
  - rewrite Forall_forall in Hdelays. specialize (Hdelays _ Hin).
    discriminate Hdelays.
Qed.

(** C4.  A paused pass (clock stopped, control button released) leaves
    both clocks as they are, whatever [millis] says.  When the control
    button starts the clock again, [lastUpdateTime] is set to the value of
    [millis] read at the press, so that the debit of that pass is counted
    from the press and not from before the pause.  And while [gameOver]
    waits for the control button, both clocks stay as they are. *)
Theorem no_debit_unless_running polls m :
  Inv (globals m) ->
  isRunning (globals m) = false ->
  (reading CONTROL_BUTTON m = HIGH ->
   handleGame variant polls m = Done tt (final (gameStep variant m)) /\
   whiteTime (globals (final (gameStep variant m))) = whiteTime (globals m) /\
   blackTime (globals (final (gameStep variant m))) = blackTime (globals m) /\
   isRunning (globals (final (gameStep variant m))) = false) /\
  (reading CONTROL_BUTTON m = LOW ->
   let m1 := afterToggle variant m in
   isRunning (globals m1) = true /\
   lastUpdateTime (globals m1)
   = clock (final (digitalRead CONTROL_BUTTON m)) /\
   whiteTime (globals m1) = whiteTime (globals m) /\
   blackTime (globals m1) = blackTime (globals m) /\
   globals (afterUpdate variant m) = advance (clock m1) (globals m1)) /\
  (forall polls' (m' : Machine W),
     let r := gameOver variant polls' m' in
     isRunning (globals (final r)) = false /\
     (returned r = false ->
      whiteTime (globals (final r)) = whiteTime (globals m') /\
      blackTime (globals (final r)) = blackTime (globals m'))).
Proof.
  intros (_ & Hw & Hb & _) Hrun. split; [ | split ].
  - intros Hc.
    pose proof (gameStep_vars m) as Hv. simpl in Hv.
    rewrite Hc in Hv. unfold toggled in Hv. simpl in Hv.
    rewrite Hrun in Hv.
    rewrite handleGame_eq, Hv.
    assert (He : gameEnded (globals m) = false).
    { unfold gameEnded. apply orb_false_iff.
      split; apply Z.eqb_neq; lia. }
    rewrite He. auto.
  - intros Hc m1.
    destruct (afterToggle_spec m) as [Hg1 _]. fold m1 in Hg1.
    rewrite Hc in Hg1. unfold toggled in Hg1. simpl in Hg1.
    rewrite Hrun in Hg1.
    rewrite afterUpdate_spec. fold m1. rewrite Hg1. simpl. auto.
  - intros polls' m' r.
    destruct (gameOver_spec polls' m') as (Hr & _ & _ & _ & Hblocked & _).
    split; [ exact Hr | ]. intros H. split; now apply Hblocked.
Qed.

(** C10.  If both clocks are 0 when [handleGame] makes its game-end test,
    [gameOver] is called and announces Black as the winner (and not
    White): [whiteTime] is the one tested. *)
Theorem both_zero_black_wins polls m :
  let m1 := final (gameStep variant m) in
  whiteTime (globals m1) = 0 ->
  blackTime (globals m1) = 0 ->
  handleGame variant polls m = gameOver variant polls m1 /\
  winner (globals m1) = Black /\
  printed "Black Wins!" (emitted (gameOver variant polls) m1) /\
  ~ printed "White Wins!" (emitted (gameOver variant polls) m1).
Proof.
  intros m1 Hw Hb.
  assert (Hwin : winner (globals m1) = Black).
  { unfold winner. now rewrite Hw. }
  split.
  { rewrite handleGame_eq. fold m1. unfold gameEnded. now rewrite Hw. }
  split; [ exact Hwin | ].
  destruct (gameOver_out polls m1) as (l' & Hout & Hdelays).
  rewrite (emitted_app _ _ _ Hout). unfold printed.
  destruct (winsMessage_in_announcement (globals m1)) as [_ Hin].
  rewrite Hwin in Hin. split.
  - rewrite in_app_iff. now left.
  - rewrite in_app_iff. intros [H|H].
    + unfold announcement in H. rewrite Hwin in H.
      destruct variant; simpl in H;
        repeat (destruct H as [H|H]; try discriminate H); exact H.
    + rewrite Forall_forall in Hdelays. specialize (Hdelays _ H).
      discriminate Hdelays.
Qed.

(** ** The two branches of [loop] *)

Lemma loop_setup polls m :
  isSetup (globals m) = true ->
  loop variant polls m
  = ((handleSetup variant;; modifyS resetWarnings);;
     g <- getG;; modifyS (set_wasSetup (isSetup g))) m.
Proof.
  intros H. unfold loop. unfold bind at 1. unfold getG at 1.
  now rewrite H.
Qed.

Lemma loop_game polls m :
  isSetup (globals m) = false ->
  loop variant polls m
  = ((s <- getS;;
      when (wasSetup s && true)
        (match variant with
         | Plain => play StartupBeep
         | WithLeds => play RunStarted
         end);;
      handleGame variant polls;;
      g <- getG;;
      when (isRunning g) warnings);;
     g <- getG;; modifyS (set_wasSetup (isSetup g))) m.
Proof.
  intros H. unfold loop. unfold bind at 1. unfold getG at 1.
  now rewrite H.
Qed.

(** ** The setup menu *)

Lemma handleSetup_turn b :
  keeps (fun g _ _ => isWhiteTurn g = b) (handleSetup variant).
Proof.
  unfold handleSetup, showTimeOption, nextOption, previousOption,
    confirmSetup, resetTimes.
  keeps_go ltac:(intros; simpl; assumption).
Qed.

(** C9.  Neither the setup menu (with or without its confirmation) nor
    [gameOver] (while it waits or when it restarts) writes [isWhiteTurn];
    so a whole pass of [loop] in setup mode leaves it as it is, and the
    player to move when a game ends is the player to move when the next
    game starts. *)
Theorem turn_carries_over polls m :
  isWhiteTurn (globals (final (handleSetup variant m)))
  = isWhiteTurn (globals m) /\
  isWhiteTurn (globals (final (gameOver variant polls m)))
  = isWhiteTurn (globals m) /\
  (isSetup (globals m) = true ->
   isWhiteTurn (globals (final (loop variant polls m)))
   = isWhiteTurn (globals m)).
Proof.
  split; [ | split ].
  - now apply (handleSetup_turn (isWhiteTurn (globals m)) m).
  - apply gameOver_spec.
  - intros Hs. rewrite (loop_setup polls m Hs).
    assert (Hk : keeps (fun g _ _ => isWhiteTurn g = isWhiteTurn (globals m))
                   ((handleSetup variant;; modifyS resetWarnings);;
                    g <- getG;; modifyS (set_wasSetup (isSetup g)))).
    { apply keeps_bind; [ apply keeps_bind | intros _ ];
        [ apply handleSetup_turn | intros _ | ];
        keeps_go ltac:(intros; simpl; assumption). }
    now apply Hk.
Qed.

Lemma handleSetup_final m :
  final (handleSetup variant m) = final (confirmSetup (atConfirm variant m)).
Proof.
  unfold handleSetup, atConfirm.
  assert (H1 : total (W := W) showTimeOption)
    by (unfold showTimeOption; total_go).
  assert (H2 : total (W := W) nextOption)
    by (unfold nextOption; total_go).
  assert (H3 : total (previousOption variant))
    by (unfold previousOption; total_go).
  rewrite (final_seq showTimeOption _ m tt) by (apply total_unit, H1).
  rewrite (final_seq nextOption _ _ tt) by (apply total_unit, H2).
  rewrite (final_seq (previousOption variant) _ _ tt)
    by (apply total_unit, H3).
  reflexivity.
Qed.

Lemma confirmSetup_spec m :
  globals (final (confirmSetup m))
  = (if is_low (reading CONTROL_BUTTON m)
     then reset (clock (final (digitalRead CONTROL_BUTTON m)))
                (set_isSetup false (globals m))
     else globals m) /\
  statics (final (confirmSetup m)) = statics m.
Proof.
  unfold confirmSetup, reading, clock, resetTimes, reset, bind,
    digitalRead, millis, modifyG, getG, when, delay, emit, ret; simpl.
  destruct (board_digitalRead CONTROL_BUTTON (world m)) as [lv w]; simpl.
  destruct lv; simpl; auto.
Qed.

Lemma full_time_option d g :
  In d TIME_OPTIONS ->
  time_option (currentTimeOption g) = d ->
  full_time g = d * 1000.
Proof.
  unfold full_time; intros Hin ->.
  unfold TIME_OPTIONS in Hin; simpl in Hin.
  destruct Hin as [<-|[<-|[<-|[<-|[]]]]]; reflexivity.
Qed.

(** C8.  When the control button confirms the setup with the option [d]
    (one of 120, 600, 1800, 3600 seconds) selected, [handleSetup] leaves
    the setup mode with both clocks at exactly [d * 1000] ms. *)
Theorem confirmSetup_sets_both_clocks d m :
  In d TIME_OPTIONS ->
  let mc := atConfirm variant m in
  time_option (currentTimeOption (globals mc)) = d ->
  reading CONTROL_BUTTON mc = LOW ->
  let g' := globals (final (handleSetup variant m)) in
  whiteTime g' = d * 1000 /\
  blackTime g' = d * 1000 /\
  isSetup g' = false.
Proof.
  intros Hin mc Hd Hc g'. unfold g'.
  rewrite handleSetup_final. fold mc.
  destruct (confirmSetup_spec mc) as [Hg _]. rewrite Hg, Hc. simpl.
  unfold full_time; simpl. fold (full_time (globals mc)).
  rewrite (full_time_option d (globals mc) Hin Hd). auto.
Qed.

(** ** A pass of [loop] outside the setup mode *)

Lemma loop_game_split polls m :
  isSetup (globals m) = false ->
  loop variant polls m
  = match handleGame variant polls (atHandleGame variant m) with
    | Done _ mb => afterGame mb
    | Blocked mb => Blocked mb
    end.
Proof.
  intros H. rewrite (loop_game polls m H). unfold atHandleGame, afterGame.
  unfold bind at 1 2 3. unfold getS at 1. unfold when at 1.
  destruct (wasSetup (statics m)); simpl.
  - destruct variant; unfold play, emit; unfold bind at 1;
      match goal with
      | |- context [handleGame ?v polls ?x] =>
          now destruct (handleGame v polls x)
      end.
  - unfold bind at 1; now destruct (handleGame variant polls m).
Qed.

Lemma atHandleGame_vars m :
  globals (atHandleGame variant m) = globals m /\
  statics (atHandleGame variant m) = statics m.
Proof.
  unfold atHandleGame. destruct (wasSetup (statics m)); auto.
Qed.

Lemma finalSecondsLoop_vars (P : Globals -> Prop) n t :
  keeps (W := W) (fun g _ _ => P g) (finalSecondsLoop n t).
Proof.
  induction n as [|k IH]; simpl.
  - apply keeps_ret.
  - keeps_go same_vars; try exact IH.
Qed.

Lemma warnings_globals (P : Globals -> Prop) :
  keeps (W := W) (fun g _ _ => P g) warnings.
Proof.
  unfold warnings, oneMinuteWarning, thirtySecondWarning, finalSeconds.
  keeps_go same_vars. apply finalSecondsLoop_vars.
Qed.

Lemma afterGame_globals (P : Globals -> Prop) :
  keeps (W := W) (fun g _ _ => P g) afterGame.
Proof.
  unfold afterGame. keeps_go same_vars. apply warnings_globals.
Qed.

Lemma total_afterGame : total (W := W) afterGame.
Proof. unfold afterGame. total_go; try apply total_warnings. Qed.

(** ** The invariant of [loop] *)

Lemma full_time_valid g :
  valid_option g -> 0 < full_time g < ULONG_MOD.
Proof.
  unfold valid_option, NUM_OPTIONS, full_time, ULONG_MOD. intros H.
  assert (Hc : currentTimeOption g = 0 \/ currentTimeOption g = 1 \/
               currentTimeOption g = 2 \/ currentTimeOption g = 3) by lia.
  destruct Hc as [-> | [-> | [-> | ->]]]; vm_compute; split; reflexivity.
Qed.

Lemma reset_Inv t g : valid_option g -> is_ulong t -> Inv (reset t g).
Proof.
  intros Hv Ht. pose proof (full_time_valid g Hv) as Hf.
  unfold Inv, reset, valid_option in *; simpl. auto.
Qed.

Lemma nextOption_valid i :
  0 <= i < NUM_OPTIONS -> 0 <= Z.rem (to_int (i + 1)) NUM_OPTIONS < NUM_OPTIONS.
Proof.
  unfold NUM_OPTIONS. intros H.
  assert (Hc : i = 0 \/ i = 1 \/ i = 2 \/ i = 3) by lia.
  destruct Hc as [-> | [-> | [-> | ->]]]; vm_compute; split; congruence.
Qed.

Lemma previousOption_valid i :
  0 <= i < NUM_OPTIONS ->
  0 <= Z.rem (to_int (to_int (i - 1) + NUM_OPTIONS)) NUM_OPTIONS < NUM_OPTIONS.
Proof.
  unfold NUM_OPTIONS. intros H.
  assert (Hc : i = 0 \/ i = 1 \/ i = 2 \/ i = 3) by lia.
  destruct Hc as [-> | [-> | [-> | ->]]]; vm_compute; split; congruence.
Qed.

Lemma atConfirm_Inv m : Inv (globals m) -> Inv (globals (atConfirm variant m)).
Proof.
  intros H.
  assert (Hk : keeps (fun g _ _ => Inv g)
                 (showTimeOption;; nextOption;; previousOption variant)).
  { unfold showTimeOption, nextOption, previousOption.
    keeps_go ltac:(first
      [ same_vars
      | intros g ? ? (Hv & Hr); split; [ | exact Hr ];
        unfold valid_option; simpl;
        first [ now apply nextOption_valid
              | now apply previousOption_valid ] ]). }
  specialize (Hk m H). unfold atConfirm.
  assert (H1 : total (W := W) showTimeOption)
    by (unfold showTimeOption; total_go).
  assert (H2 : total (W := W) nextOption)
    by (unfold nextOption; total_go).
  rewrite (final_seq showTimeOption _ m tt) in Hk
    by (apply total_unit, H1).
  rewrite (final_seq nextOption _ _ tt) in Hk by (apply total_unit, H2).
  exact Hk.
Qed.

Lemma handleSetup_Inv m :
  Inv (globals m) -> Inv (globals (final (handleSetup variant m))).
Proof.
  intros H. rewrite handleSetup_final.
  apply atConfirm_Inv in H.
  destruct (confirmSetup_spec (atConfirm variant m)) as [Hg _]. rewrite Hg.
  destruct (is_low _); [ | exact H ].
  apply reset_Inv; [ apply H | apply clock_range ].
Qed.

Lemma handleGame_Inv polls m :
  Inv (globals m) ->
  returned (handleGame variant polls m) = true ->
  Inv (globals (final (handleGame variant polls m))).
Proof.
  intros (Hv & Hw & Hb & Hl). rewrite handleGame_eq.
  destruct (gameStep_clocks m) as (Ho & Ha & Hc & _ & Hlu).
  set (m1 := final (gameStep variant m)) in *.
  assert (Hv1 : valid_option (globals m1)).
  { unfold valid_option in *. now rewrite Hc. }
  destruct (gameEnded (globals m1)) eqn:E.
  - intros Hret.
    destruct (gameOver_spec polls m1) as (_ & _ & Hcto & _ & _ & Hdone).
    destruct (Hdone Hret) as (Hw2 & Hb2 & Hl2 & _).
    pose proof (full_time_valid _ Hv1) as Hf.
    unfold Inv, valid_option in *. rewrite Hw2, Hb2, Hcto. auto.
  - intros _. simpl.
    unfold gameEnded in E. apply orb_false_iff in E.
    destruct E as [E1 E2]. apply Z.eqb_neq in E1, E2.
    assert (Hrange : is_ulong (remaining (active (globals m)) (globals m1))).
    { destruct Ha as [->|(_ & e & ->)]; [ | apply debit_range ].
      unfold active, remaining, is_ulong.
      destruct (isWhiteTurn (globals m)); lia. }
    unfold Inv. split; [ exact Hv1 | ].
    unfold active, other, remaining, is_ulong in *.
    destruct (isWhiteTurn (globals m)); repeat split; try lia; now apply Hlu.
Qed.

(** A pass of [loop] that returns keeps the invariant. *)
Lemma loop_Inv polls m m' :
  Inv (globals m) -> loop variant polls m = Done tt m' -> Inv (globals m').
Proof.
  intros H Hloop.
  destruct (isSetup (globals m)) eqn:E.
  - rewrite (loop_setup polls m E) in Hloop.
    assert (Hk : keeps (fun g _ _ => Inv g)
                   ((handleSetup variant;; modifyS resetWarnings);;
                    g <- getG;; modifyS (set_wasSetup (isSetup g)))).
    { apply keeps_bind; [ apply keeps_bind | intros _ ];
        [ intros m0 H0; now apply handleSetup_Inv | intros _ | ];
        keeps_go same_vars. }
    specialize (Hk m H). rewrite Hloop in Hk. exact Hk.
  - rewrite (loop_game_split polls m E) in Hloop.
    destruct (atHandleGame_vars m) as [Hg _].
    pose proof (handleGame_Inv polls (atHandleGame variant m)) as HI.
    rewrite Hg in HI. specialize (HI H).
    destruct (handleGame variant polls (atHandleGame variant m))
      as [[] mb|mb]; [ | discriminate ].
    specialize (HI eq_refl). simpl in HI.
    pose proof (afterGame_globals Inv mb HI) as Hk.
    rewrite Hloop in Hk. exact Hk.
Qed.






(** ** Counting beeps *)

Lemma beeps_snoc sig l o :
  beeps sig (l ++ [o]) = (beeps sig l + if is_beep sig o then 1 else 0)%nat.
Proof.
  unfold beeps. rewrite filter_app, length_app. simpl.
  now destruct (is_beep sig o).
Qed.

Lemma waitRestart_keeps I polls :
  (forall g s l, I g s l -> I g s (l ++ [Delay 50])) ->
  keeps (W := W) I (waitRestart polls).
Proof.
  intros HI. induction polls as [|k IH]; simpl.
  - intros m H; exact H.
  - keeps_go ltac:(exact HI); try exact IH.
Qed.

Lemma finalSecondsLoop_keeps I n t :
  (forall g s l, I g s l -> I g s (l ++ [Beep FinalCountdownBeep])) ->
  (forall g s l, I g s l -> I g (set_lastFinalSecondBeep t s) l) ->
  keeps (W := W) I (finalSecondsLoop n t).
Proof.
  intros H1 H2. induction n as [|k IH]; simpl.
  - apply keeps_ret.
  - keeps_go ltac:(first [ exact H1 | exact H2 ]). exact IH.
Qed.

Ltac unfold_game :=
  unfold handleGame, gameOver, gameStep, announce, initLastTurn, toggleRun,
    updateTime, switchTurn, updateTurnDisplay, displayTimes,
    printFormattedTime, resetTimes.

(** Conditions of [keeps] about the number of beeps and the flags. *)
Ltac beeps_side :=
  let H := fresh "H" in
  intros ? ? ? H; unfold pending, warned in *;
  rewrite ?beeps_snoc; simpl in *; rewrite ?Nat.add_0_r;
  first [ exact H | lia | tauto ].

(** [handleGame] sounds no warning and leaves the flags alone. *)
Lemma handleGame_pending sig n polls :
  sig = WarningOneMinute \/ sig = WarningThirtySeconds ->
  keeps (fun _ s l => (pending sig s l <= n)%nat) (handleGame variant polls).
Proof.
  intros [-> | ->]; unfold_game;
    keeps_go beeps_side; apply waitRestart_keeps; beeps_side.
Qed.

Lemma handleGame_final_beeps n t polls :
  keeps (fun _ s l => beeps FinalCountdownBeep l = n
                      /\ lastFinalSecondBeep s = t)
        (handleGame variant polls).
Proof.
  unfold_game;
    keeps_go beeps_side; apply waitRestart_keeps; beeps_side.
Qed.

Lemma atHandleGame_beeps sig m :
  sig = WarningOneMinute \/ sig = WarningThirtySeconds
  \/ sig = FinalCountdownBeep ->
  beeps sig (out (atHandleGame variant m)) = beeps sig (out m).
Proof.
  unfold atHandleGame. intros Hsig.
  destruct (wasSetup (statics m)); [ | reflexivity ].
  simpl. rewrite beeps_snoc.
  destruct Hsig as [-> | [-> | ->]]; destruct variant; simpl; lia.
Qed.

(** The warnings of a pass: each one sounds only if its flag is not yet
    set, and sets it. *)
Lemma afterGame_pending sig n :
  sig = WarningOneMinute \/ sig = WarningThirtySeconds ->
  keeps (W := W) (fun _ s l => (pending sig s l <= n)%nat) afterGame.
Proof.
  intros Hsig.
  assert (H1 : keeps (W := W) (fun _ s l => (pending sig s l <= n)%nat)
                     oneMinuteWarning).
  { intros m H. unfold oneMinuteWarning, bind, getG, getS, when, play,
      emit, modifyS; simpl.
    destruct (currentPlayerTime (globals m) <=? 60000); simpl;
      [ | exact H ].
    destruct (hasOneMinuteWarning (statics m)) eqn:E; simpl;
      [ exact H | ].
    unfold pending, warned in *. rewrite beeps_snoc.
    destruct Hsig as [-> | ->]; simpl in *; rewrite ?E in H; lia. }
  assert (H2 : keeps (W := W) (fun _ s l => (pending sig s l <= n)%nat)
                     thirtySecondWarning).
  { intros m H. unfold thirtySecondWarning, bind, getG, getS, when, play,
      emit, modifyS; simpl.
    destruct (currentPlayerTime (globals m) <=? 30000); simpl;
      [ | exact H ].
    destruct (hasThirtySecondWarning (statics m)) eqn:E; simpl;
      [ exact H | ].
    unfold pending, warned in *. rewrite beeps_snoc.
    destruct Hsig as [-> | ->]; simpl in *; rewrite ?E in H; lia. }
  unfold afterGame, warnings.
  apply keeps_bind; [ | intros _; destruct Hsig as [-> | ->];
                        keeps_go beeps_side ].
  apply keeps_bind; [ apply keeps_getG | intros g ].
  apply keeps_when.
  apply keeps_bind; [ apply keeps_millis | intros t ].
  apply keeps_bind; [ exact H1 | intros _ ].
  apply keeps_bind; [ exact H2 | intros _ ].
  destruct Hsig as [-> | ->]; unfold finalSeconds; keeps_go beeps_side;
    apply finalSecondsLoop_keeps; beeps_side.
Qed.

Lemma loop_pending sig polls m :
  sig = WarningOneMinute \/ sig = WarningThirtySeconds ->
  isSetup (globals m) = false ->
  (pending sig (statics (final (loop variant polls m)))
               (out (final (loop variant polls m)))
   <= pending sig (statics m) (out m))%nat.
Proof.
  intros Hsig Hs. rewrite (loop_game_split polls m Hs).
  set (n := pending sig (statics m) (out m)).
  assert (H0 : (pending sig (statics (atHandleGame variant m))
                        (out (atHandleGame variant m)) <= n)%nat).
  { unfold pending. rewrite atHandleGame_beeps by tauto.
    rewrite (proj2 (atHandleGame_vars m)). apply Nat.le_refl. }
  pose proof (handleGame_pending sig n polls Hsig _ H0) as H1.
  destruct (handleGame variant polls (atHandleGame variant m))
    as [[] mb|mb]; simpl in H1 |- *; [ | exact H1 ].
  exact (afterGame_pending sig n Hsig mb H1).
Qed.

Lemma game_run_pending sig m m' :
  sig = WarningOneMinute \/ sig = WarningThirtySeconds ->
  game_run variant m m' ->
  (pending sig (statics m') (out m') <= pending sig (statics m) (out m))%nat.
Proof.
  intros Hsig Hrun. induction Hrun as [m|m polls m1 m2 Hs Hloop _ IH].
  - apply Nat.le_refl.
  - pose proof (loop_pending sig polls m Hsig Hs) as H.
    rewrite Hloop in H. simpl in H. lia.
Qed.

(** C5.  Within one game (passes of [loop] that all start outside the
    setup mode) the one-minute warning sounds at most once, and so does
    the thirty-second warning, whichever player is to move; once the flag
    of a warning is set, that warning does not sound again in the game. *)
Theorem warnings_fire_once m m' :
  game_run variant m m' ->
  (beeps WarningOneMinute (out m')
   <= beeps WarningOneMinute (out m) + 1)%nat /\
  (beeps WarningThirtySeconds (out m')
   <= beeps WarningThirtySeconds (out m) + 1)%nat /\
  (hasOneMinuteWarning (statics m) = true ->
   (beeps WarningOneMinute (out m')
    <= beeps WarningOneMinute (out m))%nat) /\
  (hasThirtySecondWarning (statics m) = true ->
   (beeps WarningThirtySeconds (out m')
    <= beeps WarningThirtySeconds (out m))%nat).
Proof.
  intros Hrun.
  pose proof (game_run_pending WarningOneMinute m m' (or_introl eq_refl) Hrun)
    as H1.
  pose proof (game_run_pending WarningThirtySeconds m m'
                (or_intror eq_refl) Hrun) as H2.
  unfold pending, warned in H1, H2.
  repeat split.
  - destruct (hasOneMinuteWarning (statics m)); lia.
  - destruct (hasThirtySecondWarning (statics m)); lia.
  - intros E. rewrite E in H1. lia.
  - intros E. rewrite E in H2. lia.
Qed.

(** ** The final countdown *)

Lemma finalSecondsLoop_quiet n t m :
  (to_ulong (t - lastFinalSecondBeep (statics m)) >=? 1000) = false ->
  finalSecondsLoop n t m = Done tt m.
Proof.
  intros H. induction n as [|k IH]; [ reflexivity | ].
  cbn [finalSecondsLoop]. unfold bind at 1 2 3, getG, getS.
  rewrite H, andb_false_r. exact IH.
Qed.

(** The machine after a final countdown beep at [t]. *)
Lemma finalSecondsLoop_fires t m :
  (currentPlayerTime (globals m) <=? 5000) = true ->
  (to_ulong (t - lastFinalSecondBeep (statics m)) >=? 1000) = true ->
  finalSecondsLoop 5 t m
  = Done tt (mkMachine (globals m) (set_lastFinalSecondBeep t (statics m))
                       (board_perform (Beep FinalCountdownBeep) (world m))
                       (out m ++ [Beep FinalCountdownBeep])).
Proof.
  intros Hc Hd.
  change (finalSecondsLoop 5 t)
    with (g <- getG;; s <- getS;;
          when ((currentPlayerTime g <=? 5000)
                && (to_ulong (t - lastFinalSecondBeep s) >=? 1000))
            (play FinalCountdownBeep;;
             modifyS (set_lastFinalSecondBeep t));;
          finalSecondsLoop 4 t).
  unfold bind at 1 2 3, getG, getS. rewrite Hc, Hd.
  cbn [andb when]. unfold bind at 1, play, emit, modifyS. cbn [globals statics world out].
  apply finalSecondsLoop_quiet. cbn [statics lastFinalSecondBeep set_lastFinalSecondBeep].
  now rewrite Z.sub_diag.
Qed.

Lemma finalSeconds_spec t m :
  finalSeconds t m
  = Done tt
      (if finalBeepDue t (globals m) (statics m)
       then mkMachine (globals m) (set_lastFinalSecondBeep t (statics m))
                      (board_perform (Beep FinalCountdownBeep) (world m))
                      (out m ++ [Beep FinalCountdownBeep])
       else m).
Proof.
  unfold finalSeconds, finalBeepDue, bind, getG, when.
  destruct (currentPlayerTime (globals m) <=? 5000) eqn:Hc;
    [ | reflexivity ].
  destruct (to_ulong (t - lastFinalSecondBeep (statics m)) >=? 1000) eqn:Hd.
  - now apply finalSecondsLoop_fires.
  - now apply finalSecondsLoop_quiet.
Qed.

(** The rest of the pass after [handleGame]: at most one final countdown
    beep, and only if the clock runs, the player to move has at most 5000
    ms left and [millis] is at least 1000 past [lastFinalSecondBeep],
    which then takes the value of [millis]. *)
Lemma afterGame_final_beep m :
  let m' := final (afterGame m) in
  globals m' = globals m /\
  ((beeps FinalCountdownBeep (out m') = beeps FinalCountdownBeep (out m) /\
    lastFinalSecondBeep (statics m') = lastFinalSecondBeep (statics m)) \/
   (beeps FinalCountdownBeep (out m')
    = S (beeps FinalCountdownBeep (out m)) /\
    isRunning (globals m) = true /\
    currentPlayerTime (globals m) <= 5000 /\
    1000 <= to_ulong (lastFinalSecondBeep (statics m')
                      - lastFinalSecondBeep (statics m)) /\
    is_ulong (lastFinalSecondBeep (statics m')))).
Proof.
  intros m'.
  split; [ exact (afterGame_globals (fun g => g = globals m) m eq_refl) | ].
  set (n := beeps FinalCountdownBeep (out m)).
  set (last := lastFinalSecondBeep (statics m)).
  set (body := g <- getG;; when (isRunning g) warnings).
  (* the last assignment of the pass changes neither the log nor the
     time of the last beep *)
  assert (Htail : out m' = out (final (body m)) /\
                  lastFinalSecondBeep (statics m')
                  = lastFinalSecondBeep (statics (final (body m)))).
  { unfold m', afterGame. fold body.
    assert (Hb : total body)
      by (unfold body; total_go; apply total_warnings).
    rewrite (final_seq body _ m tt) by (apply total_unit, Hb).
    split. reflexivity. reflexivity. }
  destruct Htail as [-> ->].
  change (body m) with (when (isRunning (globals m)) warnings m).
  destruct (isRunning (globals m)) eqn:Hrun; [ | left; split; reflexivity ].
  cbn [when].
  set (t := clock m). set (m0 := final (millis m)).
  set (pre := oneMinuteWarning;; thirtySecondWarning).
  assert (Hpre : total (W := W) pre)
    by (unfold pre, oneMinuteWarning, thirtySecondWarning; total_go).
  assert (Hk : keeps (W := W)
                 (fun g s l => g = globals m
                               /\ beeps FinalCountdownBeep l = n
                               /\ lastFinalSecondBeep s = last) pre).
  { unfold pre, oneMinuteWarning, thirtySecondWarning.
    keeps_go beeps_side. }
  specialize (Hk m0 (conj eq_refl (conj eq_refl eq_refl))).
  destruct Hk as (Hg & Hn & Hl).
  assert (E : warnings m = finalSeconds t (final (pre m0))).
  { unfold warnings.
    rewrite (bind_done millis _ m t m0) by reflexivity.
    pose proof (total_unit pre m0 Hpre) as Ep. unfold pre in Ep |- *.
    unfold bind in Ep |- *.
    destruct (oneMinuteWarning m0) as [[] ma|ma]; [ | discriminate Ep ].
    destruct (thirtySecondWarning ma) as [[] mb|mb]; [ | discriminate Ep ].
    reflexivity. }
  rewrite E, finalSeconds_spec.
  set (mp := final (pre m0)) in *.
  unfold finalBeepDue. rewrite Hg.
  destruct (currentPlayerTime (globals m) <=? 5000) eqn:Hc;
    [ | left; cbn [andb final]; auto ].
  destruct (to_ulong (t - lastFinalSecondBeep (statics mp)) >=? 1000) eqn:Hd;
    [ | left; cbn [andb final]; auto ].
  right. cbn [andb final out statics lastFinalSecondBeep
              set_lastFinalSecondBeep].
  rewrite beeps_snoc, Hn. cbn [is_beep signal_eqb].
  rewrite Hl in Hd. rewrite Z.geb_leb in Hd.
  apply Z.leb_le in Hc, Hd.
  repeat split; try lia; apply clock_range.
Qed.

(** C6 (as amended).  In a pass of [loop] outside the setup mode the
    final countdown beep sounds at most once.  If it does not sound,
    [lastFinalSecondBeep] is unchanged.  If it sounds, the clock is
    running, the player to move has at most 5000 ms left, and
    [lastFinalSecondBeep] has moved on by at least 1000 ms (modulo 2^32) to
    the value of [millis] at the beep: the beeps are spaced by the clock,
    not by the seconds left. *)
Theorem final_beep_rate_limited polls m :
  isSetup (globals m) = false ->
  let m' := final (loop variant polls m) in
  let n := beeps FinalCountdownBeep (out m) in
  let n' := beeps FinalCountdownBeep (out m') in
  let last := lastFinalSecondBeep (statics m) in
  let last' := lastFinalSecondBeep (statics m') in
  (n' = n /\ last' = last) \/
  (n' = S n /\
   isRunning (globals m') = true /\
   currentPlayerTime (globals m') <= 5000 /\
   1000 <= to_ulong (last' - last) /\
   is_ulong last').
Proof.
  intros Hs m' n n' last last'.
  unfold n', last', m'. rewrite (loop_game_split polls m Hs).
  assert (H0 : beeps FinalCountdownBeep (out (atHandleGame variant m)) = n
               /\ lastFinalSecondBeep (statics (atHandleGame variant m))
                  = last).
  { split; [ apply atHandleGame_beeps; tauto | ].
    now rewrite (proj2 (atHandleGame_vars m)). }
  pose proof (handleGame_final_beeps n last polls _ H0) as H1.
  destruct (handleGame variant polls (atHandleGame variant m))
    as [[] mb|mb]; simpl in H1; destruct H1 as [Hn Hl].
  - destruct (afterGame_final_beep mb) as (Hg & [(Hn' & Hl')|Hfire]).
    + left. simpl. now rewrite Hn', Hl', Hn, Hl.
    + right. simpl. rewrite Hg.
      destruct Hfire as (Hn' & Hrun & Hc & Hd & Hr).
      rewrite Hn', Hn. rewrite Hl in Hd. auto.
  - left. simpl. auto.
Qed.

(** * Further properties of the sketch *)

(** ** The setup menu *)

Lemma showTimeOption_vars (P : Globals -> Statics -> Prop) :
  keeps (W := W) (fun g s _ => P g s) showTimeOption.
Proof. unfold showTimeOption; keeps_go same_vars. Qed.

Lemma nextOption_spec m :
  globals (final (nextOption m))
  = (if is_low (reading B_BUTTON m)
     then set_currentTimeOption
            (Z.rem (to_int (currentTimeOption (globals m) + 1)) NUM_OPTIONS)
            (globals m)
     else globals m) /\
  statics (final (nextOption m)) = statics m.
Proof.
  unfold nextOption, reading, bind, digitalRead, modifyG, when, delay,
    emit, ret; simpl.
  destruct (fst (board_digitalRead B_BUTTON (world m))); simpl; auto.
Qed.

Lemma previousOption_spec m :
  globals (final (previousOption variant m))
  = (if is_low (reading (W_BUTTON variant) m)
     then set_currentTimeOption
            (Z.rem (to_int (to_int (currentTimeOption (globals m) - 1)
                            + NUM_OPTIONS)) NUM_OPTIONS)
            (globals m)
     else globals m) /\
  statics (final (previousOption variant m)) = statics m.
Proof.
  unfold previousOption, reading, bind, digitalRead, modifyG, when, delay,
    emit, ret; simpl.
  destruct (fst (board_digitalRead (W_BUTTON variant) (world m)));
    simpl; auto.
Qed.

Lemma confirmSetup_option m :
  currentTimeOption (globals (final (confirmSetup m)))
  = currentTimeOption (globals m).
Proof.
  rewrite (proj1 (confirmSetup_spec m)).
  now destruct (is_low (reading CONTROL_BUTTON m)).
Qed.

(** X1.  The time option moves in a circle over the four options: in a
    pass of the setup menu Black's button moves the index one up and
    White's button one down, modulo 4 (so 3 goes up to 0, 0 goes down to
    3, and both buttons together leave it where it is); the index stays
    inside the array. *)
Theorem option_selection_wraps m :
  valid_option (globals m) ->
  let i := currentTimeOption (globals m) in
  let m1 := final (showTimeOption m) in
  let m2 := final (nextOption m1) in
  let up := if is_low (reading B_BUTTON m1) then 1 else 0 in
  let down := if is_low (reading (W_BUTTON variant) m2) then 1 else 0 in
  currentTimeOption (globals (final (handleSetup variant m)))
  = (i + up - down) mod NUM_OPTIONS /\
  valid_option (globals (final (handleSetup variant m))).
Proof.
  intros Hv i m1 m2 up down.
  assert (Hi : currentTimeOption (globals (final (handleSetup variant m)))
               = (i + up - down) mod NUM_OPTIONS).
  { rewrite handleSetup_final, confirmSetup_option.
    assert (Hg : globals m1 = globals m)
      by exact (showTimeOption_vars (fun g _ => g = globals m) m eq_refl).
    assert (H2 : currentTimeOption (globals m2)
                 = if is_low (reading B_BUTTON m1)
                   then Z.rem (to_int (i + 1)) NUM_OPTIONS else i).
    { unfold m2. rewrite (proj1 (nextOption_spec m1)), Hg.
      now destruct (is_low (reading B_BUTTON m1)). }
    assert (H3 : currentTimeOption (globals (atConfirm variant m))
                 = if is_low (reading (W_BUTTON variant) m2)
                   then Z.rem (to_int (to_int (currentTimeOption (globals m2)
                                               - 1) + NUM_OPTIONS))
                              NUM_OPTIONS
                   else currentTimeOption (globals m2)).
    { unfold atConfirm. fold m1. fold m2.
      rewrite (proj1 (previousOption_spec m2)).
      now destruct (is_low (reading (W_BUTTON variant) m2)). }
    rewrite H3, H2. unfold up, down.
    unfold valid_option, NUM_OPTIONS in *. fold i in Hv.
    assert (Hc : i = 0 \/ i = 1 \/ i = 2 \/ i = 3) by lia.
    destruct (is_low (reading B_BUTTON m1)),
             (is_low (reading (W_BUTTON variant) m2));
      destruct Hc as [-> | [-> | [-> | ->]]]; reflexivity. }
  split; [ exact Hi | ].
  unfold valid_option. rewrite Hi. unfold NUM_OPTIONS.
  apply Z.mod_pos_bound. lia.
Qed.

(** ** The time update *)

Lemma debit_debit e1 e2 t :
  is_ulong t -> 0 <= e1 -> 0 <= e2 ->
  debit e2 (debit e1 t) = debit (e1 + e2) t.
Proof.
  intros Ht H1 H2.
  destruct (debit_spec e1 t Ht H1) as [E1 R1].
  assert (Ht' : is_ulong (debit e1 t)) by apply debit_range.
  destruct (debit_spec e2 (debit e1 t) Ht' H2) as [E2 _].
  destruct (debit_spec (e1 + e2) t Ht) as [E3 _]; [ lia | ].
  rewrite E2, E3, E1.
  destruct (e1 >=? t) eqn:Ea; rewrite Z.geb_leb in Ea;
    [ apply Z.leb_le in Ea | apply Z.leb_gt in Ea ].
  - destruct (e2 >=? 0) eqn:Eb; rewrite Z.geb_leb in Eb;
      [ | apply Z.leb_gt in Eb; lia ].
    destruct (e1 + e2 >=? t) eqn:Ec; rewrite Z.geb_leb in Ec;
      [ reflexivity | apply Z.leb_gt in Ec; lia ].
  - destruct (e2 >=? t - e1) eqn:Eb; rewrite Z.geb_leb in Eb;
      [ apply Z.leb_le in Eb | apply Z.leb_gt in Eb ];
      destruct (e1 + e2 >=? t) eqn:Ec; rewrite Z.geb_leb in Ec;
      [ apply Z.leb_le in Ec | apply Z.leb_gt in Ec
      | apply Z.leb_le in Ec | apply Z.leb_gt in Ec ]; lia.
Qed.

(** X2.  The elapsed time is computed modulo 2^32, so the debit is right
    across the roll-over of [millis]: if [d] milliseconds (less than 2^32)
    have passed since the last update, whatever the two readings are, the
    clock of the player to move loses [d], stopping at zero, and the other
    clock is untouched. *)
Theorem advance_across_rollover d m :
  let g := globals m in
  let p := active g in
  is_ulong (lastUpdateTime g) ->
  is_ulong (remaining p g) ->
  0 <= d < ULONG_MOD ->
  clock m = to_ulong (lastUpdateTime g + d) ->
  let g' := globals (final (updateTime m)) in
  remaining p g' = (if d >=? remaining p g then 0 else remaining p g - d) /\
  remaining (other p) g' = remaining (other p) g /\
  lastUpdateTime g' = clock m.
Proof.
  intros g p Hl Hr Hd Hc g'.
  assert (Hg' : g' = advance (clock m) g) by apply updateTime_spec.
  assert (He : to_ulong (clock m - lastUpdateTime g) = d).
  { rewrite Hc. unfold to_ulong, ULONG_MOD in *.
    rewrite Zminus_mod_idemp_l.
    replace (lastUpdateTime g + d - lastUpdateTime g) with d by lia.
    apply Z.mod_small. lia. }
  rewrite Hg'. unfold advance. rewrite He.
  unfold p, active, remaining in *.
  destruct (isWhiteTurn g) eqn:Et; simpl;
    destruct (debit_spec d _ Hr (proj1 Hd)) as [-> _]; auto.
Qed.

(** X3.  Two time updates in a row, with no turn switch between them,
    leave the variables as one update at the later reading does: the time
    debited over the two intervals is the time of the whole interval,
    stopping at zero. *)
Theorem advance_composes m :
  let g := globals m in
  let m1 := final (updateTime m) in
  is_ulong (lastUpdateTime g) ->
  is_ulong (remaining (active g) g) ->
  lastUpdateTime g <= clock m ->
  clock m <= clock m1 ->
  globals (final (updateTime m1)) = advance (clock m1) g.
Proof.
  intros g m1 Hl Hr H1 H2.
  rewrite (proj1 (updateTime_spec m1)).
  unfold m1 at 2. rewrite (proj1 (updateTime_spec m)). fold g.
  pose proof (clock_range m) as Hc. pose proof (clock_range m1) as Hc1.
  set (t1 := clock m) in *. set (t2 := clock m1) in *.
  unfold advance.
  destruct (advance_fields t1 g) as (Ht & _ & _ & _ & Hlu).
  unfold advance in Ht, Hlu. rewrite Ht, Hlu.
  assert (E1 : to_ulong (t1 - lastUpdateTime g) = t1 - lastUpdateTime g)
    by (apply to_ulong_small; unfold is_ulong in *; lia).
  assert (E2 : to_ulong (t2 - t1) = t2 - t1)
    by (apply to_ulong_small; unfold is_ulong in *; lia).
  assert (E3 : to_ulong (t2 - lastUpdateTime g) = t2 - lastUpdateTime g)
    by (apply to_ulong_small; unfold is_ulong in *; lia).
  rewrite E1, E2, E3.
  unfold active, remaining in Hr.
  destruct g as [o bt wt lu turn run su]; simpl in *.
  destruct turn; simpl; unfold set_whiteTime, set_blackTime,
    set_lastUpdateTime; simpl;
    rewrite (debit_debit (t1 - lu) (t2 - t1)) by (unfold is_ulong in *; lia);
    replace (t1 - lu + (t2 - t1)) with (t2 - lu) by lia; reflexivity.
Qed.

(** ** The control button *)

(** X4.  The control button flips [isRunning]; and in every pass in which
    the clock is stopped after that (a paused pass, or the pass that
    pauses), the buttons of the players are not read: neither clock and
    not the turn changes, and [handleGame] returns. *)
Theorem stopped_clock_ignores_players polls m :
  Inv (globals m) ->
  let m1 := afterToggle variant m in
  isRunning (globals m1)
  = xorb (isRunning (globals m)) (is_low (reading CONTROL_BUTTON m)) /\
  (isRunning (globals m1) = false ->
   handleGame variant polls m = Done tt (final (gameStep variant m)) /\
   whiteTime (globals (final (gameStep variant m))) = whiteTime (globals m) /\
   blackTime (globals (final (gameStep variant m))) = blackTime (globals m) /\
   isWhiteTurn (globals (final (gameStep variant m)))
   = isWhiteTurn (globals m)).
Proof.
  intros (_ & Hw & Hb & _) m1.
  destruct (afterToggle_spec m) as [Hg1 _]. fold m1 in Hg1.
  destruct (toggled_fields (reading CONTROL_BUTTON m)
              (clock (final (digitalRead CONTROL_BUTTON m))) (globals m))
    as (Tw & Tb & Tt & _).
  split.
  - rewrite Hg1. unfold toggled.
    destruct (is_low (reading CONTROL_BUTTON m)); simpl;
      now destruct (isRunning (globals m)).
  - intros Hstop.
    pose proof (gameStep_globals m) as Hv. fold m1 in Hv.
    rewrite Hstop in Hv.
    rewrite handleGame_eq, Hv, Hg1, Tw, Tb, Tt.
    assert (He : gameEnded (globals m1) = false).
    { unfold gameEnded. rewrite Hg1, Tw, Tb. apply orb_false_iff.
      split; apply Z.eqb_neq; lia. }
    rewrite Hg1 in He. rewrite He. auto.
Qed.

(** ** The statics of [handleGame] *)

(** [handleGame] up to its game-end test, cut at the turn display. *)
Lemma gameStep_final m :
  let m1 := afterToggle variant m in
  let m2 := final (when (isRunning (globals m1))
                     (updateTime;; switchTurn variant) m1) in
  final (gameStep variant m)
  = final (displayTimes variant
             (final (when (turnChanged (globals m2) (statics m2))
                       (modifyS (set_lastTurn
                                   (Some (isWhiteTurn (globals m2))));;
                        updateTurnDisplay variant) m2))).
Proof.
  intros m1 m2. unfold gameStep.
  rewrite (final_seq initLastTurn _ m tt)
    by (apply total_unit, total_initLastTurn).
  rewrite (final_seq (toggleRun variant) _ _ tt)
    by (apply total_unit, total_toggleRun).
  change (final (toggleRun variant (final (initLastTurn m)))) with m1.
  rewrite (final_seq getG _ m1 (globals m1)) by reflexivity.
  change (final (getG m1)) with m1.
  set (body := when (isRunning (globals m1))
                 (updateTime;; switchTurn variant)).
  assert (Hb : total body) by
    (unfold body; total_go;
     auto using total_updateTime, total_switchTurn).
  rewrite (final_seq body _ m1 tt) by (apply total_unit, Hb).
  change (final (body m1)) with m2.
  rewrite (final_seq getG _ m2 (globals m2)) by reflexivity.
  change (final (getG m2)) with m2.
  rewrite (final_seq getS _ m2 (statics m2)) by reflexivity.
  change (final (getS m2)) with m2.
  set (disp := when (turnChanged (globals m2) (statics m2))
                 (modifyS (set_lastTurn (Some (isWhiteTurn (globals m2))));;
                  updateTurnDisplay variant)).
  assert (Hd : total disp) by
    (unfold disp; total_go; apply total_updateTurnDisplay).
  rewrite (final_seq disp _ m2 tt) by (apply total_unit, Hd).
  reflexivity.
Qed.

Lemma set_lastTurn_same s : set_lastTurn (lastTurn s) s = s.
Proof. now destruct s. Qed.

(** After [handleGame]'s display update, [lastTurn] is the player to
    move; the other statics are untouched. *)
Lemma gameStep_statics m :
  statics (final (gameStep variant m))
  = set_lastTurn (Some (isWhiteTurn (globals (final (gameStep variant m)))))
                 (statics m).
Proof.
  pose proof (gameStep_final m) as Hf. cbv zeta in Hf.
  set (m1 := afterToggle variant m) in *.
  set (m2 := final (when (isRunning (globals m1))
                      (updateTime;; switchTurn variant) m1)) in *.
  set (disp := when (turnChanged (globals m2) (statics m2))
                 (modifyS (set_lastTurn (Some (isWhiteTurn (globals m2))));;
                  updateTurnDisplay variant)) in *.
  (* the statics before the display update *)
  assert (Hs0 : statics (final (initLastTurn m))
                = match lastTurn (statics m) with
                  | Some _ => statics m
                  | None => set_lastTurn (Some (isWhiteTurn (globals m)))
                                         (statics m)
                  end).
  { unfold initLastTurn, bind, getS, getG, modifyS, ret; simpl.
    now destruct (lastTurn (statics m)). }
  assert (Hs1 : statics m1 = statics (final (initLastTurn m))).
  { unfold m1, afterToggle. apply toggleRun_spec. }
  assert (Hs2 : statics m2 = statics m1).
  { unfold m2. destruct (isRunning (globals m1)); [ | reflexivity ].
    cbn [when].
    rewrite (final_seq updateTime _ m1 tt)
      by (apply total_unit, total_updateTime).
    rewrite (proj2 (switchTurn_spec _)).
    apply updateTime_spec. }
  (* the display update *)
  assert (Hd : globals (final (disp m2)) = globals m2 /\
               statics (final (disp m2))
               = if turnChanged (globals m2) (statics m2)
                 then set_lastTurn (Some (isWhiteTurn (globals m2)))
                                   (statics m2)
                 else statics m2).
  { unfold disp. destruct (turnChanged (globals m2) (statics m2));
      [ | split; reflexivity ].
    cbn [when].
    rewrite (final_seq (modifyS _) _ m2 tt) by reflexivity.
    split.
    - apply (updateTurnDisplay_vars (fun g _ => g = globals m2)).
      reflexivity.
    - apply (updateTurnDisplay_vars
               (fun _ s => s = set_lastTurn
                                 (Some (isWhiteTurn (globals m2)))
                                 (statics m2))).
      reflexivity. }
  destruct Hd as [Hdg Hds].
  assert (Hg : globals (final (gameStep variant m)) = globals m2).
  { rewrite Hf, <- Hdg.
    exact (displayTimes_vars (fun g _ => g = globals (final (disp m2)))
             _ eq_refl). }
  assert (Hs : statics (final (gameStep variant m))
               = statics (final (disp m2))).
  { rewrite Hf.
    exact (displayTimes_vars (fun _ s => s = statics (final (disp m2)))
             _ eq_refl). }
  rewrite Hs, Hds, Hg, Hs2, Hs1, Hs0.
  unfold turnChanged.
  destruct (statics m) as [ws h1 h30 lf lt]; simpl.
  destruct lt as [b|]; simpl.
  - destruct (isWhiteTurn (globals m2)), b; reflexivity.
  - destruct (isWhiteTurn (globals m2)), (isWhiteTurn (globals m));
      reflexivity.
Qed.

(** ** What every pass of [loop] starts from *)

Lemma handleSetup_statics (P : Statics -> Prop) :
  keeps (fun _ s _ => P s) (handleSetup variant).
Proof.
  unfold handleSetup, showTimeOption, nextOption, previousOption,
    confirmSetup, resetTimes.
  keeps_go same_vars.
Qed.

Lemma handleSetup_running b :
  keeps (fun g _ _ => isRunning g = b) (handleSetup variant).
Proof.
  unfold handleSetup, showTimeOption, nextOption, previousOption,
    confirmSetup, resetTimes.
  keeps_go ltac:(intros; simpl; assumption).
Qed.

Lemma handleSetup_beeps sig n :
  keeps (fun _ _ l => beeps sig l = n) (handleSetup variant).
Proof.
  unfold handleSetup, showTimeOption, nextOption, previousOption,
    confirmSetup, resetTimes.
  keeps_go beeps_side.
Qed.

(** A pass of [loop] in the setup mode, in terms of [handleSetup]. *)
Lemma loop_setup_final polls m :
  isSetup (globals m) = true ->
  let mh := final (handleSetup variant m) in
  loop variant polls m
  = Done tt (mkMachine (globals mh)
                       (set_wasSetup (isSetup (globals mh))
                                     (resetWarnings (statics mh)))
                       (world mh) (out mh)).
Proof.
  intros H mh. rewrite (loop_setup polls m H).
  unfold bind at 1 2.
  rewrite (total_unit _ m total_handleSetup). reflexivity.
Qed.

Lemma afterGame_running m :
  isRunning (globals m) = true ->
  final (afterGame m)
  = final ((g <- getG;; modifyS (set_wasSetup (isSetup g)))
             (final (finalSeconds (clock m)
                (final (thirtySecondWarning
                   (final (oneMinuteWarning (final (millis m))))))))).
Proof.
  intros Hrun. unfold afterGame.
  set (body := g <- getG;; when (isRunning g) warnings).
  assert (Hb : total body)
    by (unfold body; total_go; apply total_warnings).
  rewrite (final_seq body _ m tt) by (apply total_unit, Hb).
  f_equal. f_equal.
  change (body m) with (when (isRunning (globals m)) warnings m).
  rewrite Hrun. cbn [when]. unfold warnings.
  rewrite (final_seq millis _ m (clock m)) by reflexivity.
  assert (H1 : total (W := W) oneMinuteWarning)
    by (unfold oneMinuteWarning; total_go).
  assert (H2 : total (W := W) thirtySecondWarning)
    by (unfold thirtySecondWarning; total_go).
  rewrite (final_seq oneMinuteWarning _ _ tt) by (apply total_unit, H1).
  rewrite (final_seq thirtySecondWarning _ _ tt) by (apply total_unit, H2).
  reflexivity.
Qed.

Lemma afterGame_stopped m :
  isRunning (globals m) = false ->
  final (afterGame m)
  = mkMachine (globals m) (set_wasSetup (isSetup (globals m)) (statics m))
              (world m) (out m).
Proof.
  intros Hrun. unfold afterGame.
  unfold bind at 1 2. unfold getG at 1. rewrite Hrun. reflexivity.
Qed.

Lemma afterGame_lastTurn x :
  keeps (W := W) (fun _ s _ => lastTurn s = x) afterGame.
Proof.
  unfold afterGame, warnings, oneMinuteWarning, thirtySecondWarning,
    finalSeconds.
  keeps_go ltac:(intros; simpl; assumption).
  apply finalSecondsLoop_keeps; intros; simpl; assumption.
Qed.

Lemma afterGame_wasSetup m :
  wasSetup (statics (final (afterGame m))) = isSetup (globals m).
Proof.
  destruct (isRunning (globals m)) eqn:Hrun.
  - rewrite (afterGame_running m Hrun).
    match goal with
    | |- context [finalSeconds ?t ?x] => set (mf := final (finalSeconds t x))
    end.
    assert (Hg : globals mf = globals m).
    { pose proof (afterGame_globals (fun g => g = globals m) m eq_refl) as H.
      rewrite (afterGame_running m Hrun) in H. fold mf in H.
      exact H. }
    change (isSetup (globals mf) = isSetup (globals m)). now rewrite Hg.
  - now rewrite (afterGame_stopped m Hrun).
Qed.

Lemma loop_Sync polls m m' :
  Sync m -> loop variant polls m = Done tt m' -> Sync m'.
Proof.
  intros (Hws & Hpaused & Hturn & Hlf) Hloop.
  destruct (isSetup (globals m)) eqn:E.
  - rewrite (loop_setup_final polls m E) in Hloop.
    injection Hloop as <-. unfold Sync. cbn [globals statics].
    pose proof (handleSetup_statics (fun s => s = statics m) m eq_refl)
      as Hs. cbn beta in Hs.
    pose proof (handleSetup_running (isRunning (globals m)) m eq_refl)
      as Hr. cbn beta in Hr.
    pose proof (handleSetup_turn (isWhiteTurn (globals m)) m eq_refl)
      as Ht. cbn beta in Ht.
    rewrite Hs, Hr, Ht.
    split; [ reflexivity | ].
    split; [ intros _; now apply Hpaused | ].
    split; [ exact Hturn | ].
    cbn. unfold is_ulong, ULONG_MOD. lia.
  - rewrite (loop_game_split polls m E) in Hloop.
    assert (Hat : atHandleGame variant m = m).
    { unfold atHandleGame. now rewrite Hws. }
    rewrite Hat in Hloop.
    pose proof (handleGame_eq polls m) as Hh.
    destruct (gameStep_clocks m) as (_ & _ & _ & Hsu & _).
    pose proof (gameStep_statics m) as Hst.
    set (m1 := final (gameStep variant m)) in *.
    destruct (gameOver_spec polls m1) as (Gr & Gt & _ & Gs & _ & Gd).
    pose proof (handleGame_final_beeps
                  (beeps FinalCountdownBeep (out m))
                  (lastFinalSecondBeep (statics m)) polls m
                  (conj eq_refl eq_refl)) as [_ Hl].
    destruct (handleGame variant polls m) as [[] mb|mb] eqn:Eh;
      [ | discriminate Hloop ].
    cbn [final] in Hl.
    assert (Hmb : lastTurn (statics mb) = Some (isWhiteTurn (globals mb)) /\
                  (isSetup (globals mb) = true ->
                   isRunning (globals mb) = false)).
    { destruct (gameEnded (globals m1)).
      - rewrite <- Hh in Gr, Gt, Gs, Gd. cbn [final returned] in *.
        rewrite Gs, Gt, Hst. split; [ reflexivity | intros _; exact Gr ].
      - injection Hh as ->. rewrite Hst. split; [ reflexivity | ].
        rewrite Hsu, E. discriminate. }
    destruct Hmb as [Hlt Hp].
    assert (Hm' : m' = final (afterGame mb)) by now rewrite Hloop.
    pose proof (afterGame_globals (fun g => g = globals mb) mb eq_refl)
      as Hg. cbn beta in Hg.
    pose proof (afterGame_lastTurn _ mb Hlt) as Hlt'. cbn beta in Hlt'.
    pose proof (afterGame_wasSetup mb) as Hws'.
    destruct (afterGame_final_beep mb) as (_ & Hbeep).
    rewrite <- Hm' in Hg, Hlt', Hws', Hbeep.
    unfold Sync. rewrite Hg, Hws', Hlt'.
    split; [ reflexivity | ]. split; [ exact Hp | ].
    split; [ now right | ].
    destruct Hbeep as [(_ & ->) | (_ & _ & _ & _ & H)];
      [ rewrite Hl; exact Hlf | exact H ].
Qed.

Lemma setup_vars :
  keeps (fun g s l =>
           s = initial_statics /\ isSetup g = true /\ isRunning g = false /\
           forall sig, beeps sig l = 0%nat)
        (setup variant).
Proof.
  unfold setup, resetTimes.
  keeps_go ltac:(first
    [ intros ? ? ? (? & ? & ? & ?); repeat split; simpl; assumption
    | intros ? ? ? (? & ? & ? & Hb); repeat split; try assumption;
      intros sig; rewrite beeps_snoc, Hb; reflexivity ]).
Qed.

Lemma setup_Sync w m :
  setup variant (power_on w) = Done tt m ->
  Sync m /\ forall sig, beeps sig (out m) = 0%nat.
Proof.
  intros H.
  assert (H0 : initial_statics = initial_statics /\
               isSetup initial_globals = true /\
               isRunning initial_globals = false /\
               forall sig, beeps sig (@nil Output) = 0%nat)
    by (repeat split).
  pose proof (setup_vars (power_on w) H0) as (Hs & Hse & Hr & Hb).
  rewrite H in Hs, Hse, Hr, Hb. cbn [final] in *.
  split; [ | exact Hb ].
  unfold Sync. rewrite Hs, Hse. cbn.
  repeat split; auto; lia.
Qed.

Lemma reachable_Sync m : reachable variant m -> Sync m.
Proof.
  induction 1 as [w m H|m polls m' _ IH H].
  - now apply setup_Sync in H.
  - now apply loop_Sync in H.
Qed.


(** ** The beep of a game that starts *)

Lemma handleGame_startup_beeps n polls :
  keeps (fun _ _ l => beeps StartupBeep l = n) (handleGame variant polls).
Proof.
  unfold_game; keeps_go beeps_side; apply waitRestart_keeps; beeps_side.
Qed.

Lemma afterGame_startup_beeps n :
  keeps (W := W) (fun _ _ l => beeps StartupBeep l = n) afterGame.
Proof.
  unfold afterGame, warnings, oneMinuteWarning, thirtySecondWarning,
    finalSeconds.
  keeps_go beeps_side. apply finalSecondsLoop_keeps; beeps_side.
Qed.

Lemma loop_startup_beeps polls m m' :
  Sync m -> loop variant polls m = Done tt m' ->
  beeps StartupBeep (out m') = beeps StartupBeep (out m).
Proof.
  intros (Hws & _) Hloop.
  destruct (isSetup (globals m)) eqn:E.
  - rewrite (loop_setup_final polls m E) in Hloop.
    injection Hloop as <-. cbn [out].
    exact (handleSetup_beeps StartupBeep _ m eq_refl).
  - rewrite (loop_game_split polls m E) in Hloop.
    assert (Hat : atHandleGame variant m = m).
    { unfold atHandleGame. now rewrite Hws. }
    rewrite Hat in Hloop.
    pose proof (handleGame_startup_beeps _ polls m eq_refl) as Hh.
    cbn beta in Hh.
    destruct (handleGame variant polls m) as [[] mb|mb];
      [ | discriminate Hloop ].
    cbn [final] in Hh.
    pose proof (afterGame_startup_beeps _ mb Hh) as Ha. cbn beta in Ha.
    now rewrite Hloop in Ha.
Qed.

(** X6.  The beep that [loop] means for a game that has just started
    never sounds: [wasSetup] is set to [isSetup] at the end of the very
    pass that confirms the setup, so [wasSetup && !isSetup] is false at
    every pass; outside the setup mode [handleGame] is reached with
    nothing written before it, and the plain variant never calls
    [playStartupBeep] at all. *)
Theorem startup_beep_never_sounds m :
  reachable variant m ->
  beeps StartupBeep (out m) = 0%nat /\
  (isSetup (globals m) = false -> atHandleGame variant m = m).
Proof.
  intros H. split.
  - induction H as [w m H|m polls m' Hr IH H].
    + now apply setup_Sync in H.
    + rewrite (loop_startup_beeps polls m m' (reachable_Sync m Hr) H).
      exact IH.
  - intros Hs. destruct (reachable_Sync m H) as (Hws & _).
    unfold atHandleGame. now rewrite Hws, Hs.
Qed.

(** ** A pass of [loop] in the setup mode *)

Lemma atConfirm_frame m :
  let g := globals (atConfirm variant m) in
  whiteTime g = whiteTime (globals m) /\
  blackTime g = blackTime (globals m) /\
  lastUpdateTime g = lastUpdateTime (globals m) /\
  isSetup g = isSetup (globals m).
Proof.
  assert (Hk : keeps (fun g _ _ =>
                        whiteTime g = whiteTime (globals m) /\
                        blackTime g = blackTime (globals m) /\
                        lastUpdateTime g = lastUpdateTime (globals m) /\
                        isSetup g = isSetup (globals m))
                 (showTimeOption;; nextOption;; previousOption variant)).
  { unfold showTimeOption, nextOption, previousOption.
    keeps_go ltac:(intros; simpl; assumption). }
  specialize (Hk m (conj eq_refl (conj eq_refl (conj eq_refl eq_refl)))).
  unfold atConfirm.
  assert (H1 : total (W := W) showTimeOption)
    by (unfold showTimeOption; total_go).
  assert (H2 : total (W := W) nextOption)
    by (unfold nextOption; total_go).
  rewrite (final_seq showTimeOption _ m tt) in Hk
    by (apply total_unit, H1).
  rewrite (final_seq nextOption _ _ tt) in Hk by (apply total_unit, H2).
  exact Hk.
Qed.

(** X7.  A pass of [loop] in the setup mode returns, sounds no beep and
    re-arms the warnings: after it both warning flags are off and
    [lastFinalSecondBeep] is 0, whatever they were.  It leaves the setup
    mode exactly when the control button reads [LOW]; as long as it does
    not, the clocks and [lastUpdateTime] stay as they are. *)
Theorem setup_pass_rearms_warnings polls m :
  isSetup (globals m) = true ->
  let m' := final (loop variant polls m) in
  returned (loop variant polls m) = true /\
  hasOneMinuteWarning (statics m') = false /\
  hasThirtySecondWarning (statics m') = false /\
  lastFinalSecondBeep (statics m') = 0 /\
  (forall sig, beeps sig (out m') = beeps sig (out m)) /\
  isSetup (globals m')
  = negb (is_low (reading CONTROL_BUTTON (atConfirm variant m))) /\
  (isSetup (globals m') = true ->
   whiteTime (globals m') = whiteTime (globals m) /\
   blackTime (globals m') = blackTime (globals m) /\
   lastUpdateTime (globals m') = lastUpdateTime (globals m)).
Proof.
  intros Hs m'. unfold m'. rewrite (loop_setup_final polls m Hs).
  cbn [final returned globals statics out].
  split; [ reflexivity | ]. split; [ reflexivity | ].
  split; [ reflexivity | ]. split; [ reflexivity | ].
  split; [ intros sig; exact (handleSetup_beeps sig _ m eq_refl) | ].
  rewrite handleSetup_final.
  rewrite (proj1 (confirmSetup_spec (atConfirm variant m))).
  destruct (atConfirm_frame m) as (Hw & Hb & Hl & Hsu).
  destruct (is_low (reading CONTROL_BUTTON (atConfirm variant m))).
  - split; [ reflexivity | ]. cbn. discriminate.
  - split; [ cbn; now rewrite Hsu | ]. intros _. auto.
Qed.

(** ** The warnings of a pass *)

Lemma oneMinuteWarning_spec m :
  let due := (currentPlayerTime (globals m) <=? 60000)
             && negb (hasOneMinuteWarning (statics m)) in
  final (oneMinuteWarning m)
  = if due
    then mkMachine (globals m) (set_hasOneMinuteWarning true (statics m))
                   (board_perform (Beep WarningOneMinute) (world m))
                   (out m ++ [Beep WarningOneMinute])
    else m.
Proof.
  unfold oneMinuteWarning, bind, getG, getS, when, play, emit, modifyS.
  cbn [globals statics world out].
  now destruct ((currentPlayerTime (globals m) <=? 60000)
                && negb (hasOneMinuteWarning (statics m))).
Qed.

Lemma thirtySecondWarning_spec m :
  let due := (currentPlayerTime (globals m) <=? 30000)
             && negb (hasThirtySecondWarning (statics m)) in
  final (thirtySecondWarning m)
  = if due
    then mkMachine (globals m) (set_hasThirtySecondWarning true (statics m))
                   (board_perform (Beep WarningThirtySeconds) (world m))
                   (out m ++ [Beep WarningThirtySeconds])
    else m.
Proof.
  unfold thirtySecondWarning, bind, getG, getS, when, play, emit, modifyS.
  cbn [globals statics world out].
  now destruct ((currentPlayerTime (globals m) <=? 30000)
                && negb (hasThirtySecondWarning (statics m))).
Qed.

Lemma finalSeconds_warned sig n b t :
  sig = WarningOneMinute \/ sig = WarningThirtySeconds ->
  keeps (W := W) (fun _ s l => beeps sig l = n /\ warned sig s = b)
        (finalSeconds t;; g <- getG;; modifyS (set_wasSetup (isSetup g))).
Proof.
  intros [-> | ->]; unfold finalSeconds; keeps_go beeps_side;
    apply finalSecondsLoop_keeps; beeps_side.
Qed.

Lemma afterGame_warnings m :
  let m' := final (afterGame m) in
  let due1 := warningDue 60000 (globals m)
                         (hasOneMinuteWarning (statics m)) in
  let due30 := warningDue 30000 (globals m)
                          (hasThirtySecondWarning (statics m)) in
  (beeps WarningOneMinute (out m')
   = beeps WarningOneMinute (out m) + if due1 then 1 else 0)%nat /\
  hasOneMinuteWarning (statics m')
  = hasOneMinuteWarning (statics m) || due1 /\
  (beeps WarningThirtySeconds (out m')
   = beeps WarningThirtySeconds (out m) + if due30 then 1 else 0)%nat /\
  hasThirtySecondWarning (statics m')
  = hasThirtySecondWarning (statics m) || due30.
Proof.
  intros m' due1 due30. unfold m', due1, due30, warningDue.
  destruct (isRunning (globals m)) eqn:Hrun.
  - rewrite (afterGame_running m Hrun).
    set (m0 := final (millis m)).
    set (ma := final (oneMinuteWarning m0)).
    set (mb := final (thirtySecondWarning ma)).
    set (tail := g <- getG;; modifyS (set_wasSetup (isSetup g))).
    assert (Hf : total (W := W) (finalSeconds (clock m)))
      by (unfold finalSeconds; total_go; apply total_finalSecondsLoop).
    rewrite <- (final_seq (finalSeconds (clock m)) (fun _ => tail) mb tt)
      by (apply total_unit, Hf).
    pose proof (finalSeconds_warned WarningOneMinute
                  (beeps WarningOneMinute (out mb))
                  (hasOneMinuteWarning (statics mb)) (clock m)
                  (or_introl eq_refl) mb (conj eq_refl eq_refl))
      as [K1 K2].
    pose proof (finalSeconds_warned WarningThirtySeconds
                  (beeps WarningThirtySeconds (out mb))
                  (hasThirtySecondWarning (statics mb)) (clock m)
                  (or_intror eq_refl) mb (conj eq_refl eq_refl))
      as [K3 K4].
    cbn beta in K1, K2, K3, K4. unfold warned in K2, K4.
    fold tail in K1, K2, K3, K4.
    rewrite K1, K2, K3, K4.
    unfold mb. rewrite thirtySecondWarning_spec.
    assert (Ha : ma = if (currentPlayerTime (globals m) <=? 60000)
                         && negb (hasOneMinuteWarning (statics m))
                      then mkMachine (globals m)
                             (set_hasOneMinuteWarning true (statics m))
                             (board_perform (Beep WarningOneMinute)
                                            (world m0))
                             (out m ++ [Beep WarningOneMinute])
                      else m0).
    { unfold ma. rewrite oneMinuteWarning_spec. reflexivity. }
    rewrite Ha.
    destruct (currentPlayerTime (globals m) <=? 60000) eqn:C1,
             (hasOneMinuteWarning (statics m)) eqn:E1;
      destruct (currentPlayerTime (globals m) <=? 30000) eqn:C30,
               (hasThirtySecondWarning (statics m)) eqn:E30;
      repeat (cbn [andb negb orb globals statics out m0 final millis
                   hasOneMinuteWarning hasThirtySecondWarning
                   set_hasOneMinuteWarning set_hasThirtySecondWarning];
              rewrite ?C1, ?C30, ?E1, ?E30);
      rewrite ?beeps_snoc; cbn [is_beep signal_eqb];
      repeat split; lia.
  - rewrite (afterGame_stopped m Hrun). cbn.
    rewrite !Nat.add_0_r, !orb_false_r. auto.
Qed.

Lemma handleGame_warned sig n b polls :
  sig = WarningOneMinute \/ sig = WarningThirtySeconds ->
  keeps (fun _ s l => beeps sig l = n /\ warned sig s = b)
        (handleGame variant polls).
Proof.
  intros [-> | ->]; unfold_game;
    keeps_go beeps_side; apply waitRestart_keeps; beeps_side.
Qed.

Lemma handleGame_blocked_stopped polls m mb :
  handleGame variant polls m = Blocked mb -> isRunning (globals mb) = false.
Proof.
  rewrite handleGame_eq.
  destruct (gameEnded (globals (final (gameStep variant m))));
    [ | discriminate ].
  intros H.
  pose proof (proj1 (gameOver_spec polls (final (gameStep variant m))))
    as Hr.
  cbv zeta in Hr. now rewrite H in Hr.
Qed.

(** X8.  What a pass of [loop] outside the setup mode does with each
    warning: it sounds in this pass exactly when, after [handleGame], the
    clock is running, the player then to move has at most 60000 ms (30000
    ms for the second warning) left and the flag of the warning was not
    yet set; and the flag is set from then on.  The clock tested is the
    one of the player to move after the switches of the pass, and no
    warning sounds in the pass that ends the game. *)
Theorem warning_sounds_when_due polls m :
  isSetup (globals m) = false ->
  let m' := final (loop variant polls m) in
  let due1 := warningDue 60000 (globals m')
                         (hasOneMinuteWarning (statics m)) in
  let due30 := warningDue 30000 (globals m')
                          (hasThirtySecondWarning (statics m)) in
  (beeps WarningOneMinute (out m')
   = beeps WarningOneMinute (out m) + if due1 then 1 else 0)%nat /\
  hasOneMinuteWarning (statics m')
  = hasOneMinuteWarning (statics m) || due1 /\
  (beeps WarningThirtySeconds (out m')
   = beeps WarningThirtySeconds (out m) + if due30 then 1 else 0)%nat /\
  hasThirtySecondWarning (statics m')
  = hasThirtySecondWarning (statics m) || due30.
Proof.
  intros Hs m' due1 due30. unfold due1, due30, m'.
  rewrite (loop_game_split polls m Hs).
  set (m0 := atHandleGame variant m).
  assert (H1 : beeps WarningOneMinute (out m0)
               = beeps WarningOneMinute (out m) /\
               warned WarningOneMinute (statics m0)
               = hasOneMinuteWarning (statics m)).
  { split; [ apply atHandleGame_beeps; tauto | ].
    unfold m0. now rewrite (proj2 (atHandleGame_vars m)). }
  assert (H30 : beeps WarningThirtySeconds (out m0)
                = beeps WarningThirtySeconds (out m) /\
                warned WarningThirtySeconds (statics m0)
                = hasThirtySecondWarning (statics m)).
  { split; [ apply atHandleGame_beeps; tauto | ].
    unfold m0. now rewrite (proj2 (atHandleGame_vars m)). }
  pose proof (handleGame_warned WarningOneMinute _ _ polls
                (or_introl eq_refl) m0 H1) as [A1 A2].
  pose proof (handleGame_warned WarningThirtySeconds _ _ polls
                (or_intror eq_refl) m0 H30) as [A3 A4].
  cbn beta in A1, A2, A3, A4. unfold warned in A2, A4.
  destruct (handleGame variant polls m0) as [[] mb|mb] eqn:Eh;
    cbn [final] in A1, A2, A3, A4 |- *.
  - destruct (afterGame_warnings mb) as (B1 & B2 & B3 & B4).
    rewrite (afterGame_globals (fun g => g = globals mb) mb eq_refl).
    rewrite B1, B2, B3, B4, A1, A2, A3, A4. auto.
  - unfold warningDue.
    rewrite (handleGame_blocked_stopped polls m0 mb Eh). cbn [andb].
    rewrite A1, A2, A3, A4, !Nat.add_0_r, !orb_false_r. auto.
Qed.

(** ** The clocks during a game *)

Lemma gameStep_clocks_le m :
  Inv (globals m) ->
  let g := globals m in
  let g' := globals (final (gameStep variant m)) in
  0 <= whiteTime g' <= whiteTime g /\
  0 <= blackTime g' <= blackTime g.
Proof.
  intros (_ & Hw & Hb & _) g g'. unfold g'. rewrite gameStep_vars.
  set (c := reading CONTROL_BUTTON m).
  set (t := clock (final (digitalRead CONTROL_BUTTON m))).
  set (now := clock (afterToggle variant m)).
  set (b := reading _ _).
  clearbody c t now b. fold g in Hw, Hb |- *.
  assert (Hdw : forall e, 0 <= debit (to_ulong e) (whiteTime g)
                          <= whiteTime g).
  { intros e. apply debit_spec; [ unfold is_ulong; lia | ].
    apply to_ulong_range. }
  assert (Hdb : forall e, 0 <= debit (to_ulong e) (blackTime g)
                          <= blackTime g).
  { intros e. apply debit_spec; [ unfold is_ulong; lia | ].
    apply to_ulong_range. }
  unfold toggled, switched, advance.
  destruct g as [o bt wt lu turn run su]; simpl in *.
  destruct c, b, turn, run; simpl;
    first [ split; [ apply Hdw | lia ]
          | split; [ lia | apply Hdb ]
          | lia ].
Qed.

Lemma loop_clocks_le polls m m' :
  Inv (globals m) ->
  isSetup (globals m) = false ->
  loop variant polls m = Done tt m' ->
  isSetup (globals m') = false ->
  whiteTime (globals m') <= whiteTime (globals m) /\
  blackTime (globals m') <= blackTime (globals m).
Proof.
  intros HI Hs Hloop Hs'.
  rewrite (loop_game_split polls m Hs) in Hloop.
  destruct (atHandleGame_vars m) as [Hg _].
  set (m0 := atHandleGame variant m) in *.
  assert (HI0 : Inv (globals m0)) by now rewrite Hg.
  pose proof (handleGame_eq polls m0) as Hh.
  pose proof (gameStep_clocks_le m0 HI0) as Hle. cbv zeta in Hle.
  rewrite Hg in Hle.
  destruct (handleGame variant polls m0) as [[] mb|mb];
    [ | discriminate Hloop ].
  pose proof (afterGame_globals (fun g => g = globals mb) mb eq_refl) as Ha.
  cbn beta in Ha. rewrite Hloop in Ha. cbn [final] in Ha.
  destruct (gameEnded (globals (final (gameStep variant m0)))).
  - exfalso.
    destruct (gameOver_spec polls (final (gameStep variant m0)))
      as (_ & _ & _ & _ & _ & Hd).
    rewrite <- Hh in Hd. cbn [final returned] in Hd.
    destruct (Hd eq_refl) as (_ & _ & _ & Hsu).
    rewrite <- Ha in Hsu. congruence.
  - injection Hh as ->. rewrite Ha. lia.
Qed.

(** X9.  During a game no clock ever goes up: over any run of passes of
    [loop] from a well-formed machine that ends outside the setup mode
    (the game is still on), both clocks are at most what they were, and
    still non-zero. *)
Theorem clocks_never_increase m m' :
  game_run variant m m' ->
  Inv (globals m) ->
  isSetup (globals m') = false ->
  0 < whiteTime (globals m') <= whiteTime (globals m) /\
  0 < blackTime (globals m') <= blackTime (globals m).
Proof.
  intros Hrun. induction Hrun as [m|m polls m1 m2 Hs Hloop Hrest IH].
  - intros (_ & Hw & Hb & _) _. lia.
  - intros HI Hs2.
    pose proof (loop_Inv polls m m1 HI Hloop) as HI1.
    assert (Hs1 : isSetup (globals m1) = false).
    { inversion Hrest; subst; assumption. }
    destruct (loop_clocks_le polls m m1 HI Hs Hloop Hs1) as [Hw Hb].
    specialize (IH HI1 Hs2). lia.
Qed.

(** ** The wait loop of [gameOver] *)

Lemma waited_S k m :
  waited (S k) m
  = waited k (final (delay 50 (final (digitalRead CONTROL_BUTTON m)))).
Proof. reflexivity. Qed.

Lemma waitRestart_exact k : forall m polls,
  (forall j, (j < k)%nat -> reading CONTROL_BUTTON (waited j m) = HIGH) ->
  reading CONTROL_BUTTON (waited k m) = LOW ->
  waitRestart polls m
  = if (k <? polls)%nat
    then Done tt (final (digitalRead CONTROL_BUTTON (waited k m)))
    else Blocked (waited polls m).
Proof.
  induction k as [|k IH]; intros m polls Hhigh Hlow.
  - destruct polls as [|p]; [ reflexivity | ].
    cbn [waited] in Hlow. cbn [waitRestart Nat.ltb Nat.leb].
    unfold bind at 1.
    change (digitalRead CONTROL_BUTTON m)
      with (Done (W := W) (reading CONTROL_BUTTON m)
                 (final (digitalRead CONTROL_BUTTON m))).
    rewrite Hlow. reflexivity.
  - destruct polls as [|p]; [ reflexivity | ].
    pose proof (Hhigh 0%nat (Nat.lt_0_succ k)) as H0. cbn [waited] in H0.
    cbn [waitRestart]. unfold bind at 1.
    change (digitalRead CONTROL_BUTTON m)
      with (Done (W := W) (reading CONTROL_BUTTON m)
                 (final (digitalRead CONTROL_BUTTON m))).
    rewrite H0. cbn [is_low].
    set (m1 := final (digitalRead CONTROL_BUTTON m)).
    change ((delay 50;; waitRestart p) m1)
      with (waitRestart p (final (delay 50 m1))).
    rewrite (IH (final (delay 50 m1)) p).
    + change (S k <? S p)%nat with (k <? p)%nat. reflexivity.
    + intros j Hj. apply (Hhigh (S j)). lia.
    + exact Hlow.
Qed.

Lemma waited_out k : forall m,
  out (waited k m) = out m ++ repeat (Delay 50) k /\
  globals (waited k m) = globals m /\
  statics (waited k m) = statics m.
Proof.
  induction k as [|k IH]; intros m.
  - cbn. now rewrite app_nil_r.
  - rewrite waited_S.
    destruct (IH (final (delay 50 (final (digitalRead CONTROL_BUTTON m)))))
      as (Ho & Hg & Hs).
    rewrite Ho, Hg, Hs. cbn [final delay emit digitalRead out globals statics].
    rewrite <- app_assoc. repeat split.
Qed.

(** X10.  [gameOver] waits for the control button and for nothing else:
    if the button reads [HIGH] at the first [k] polls and [LOW] at the
    next one, [gameOver] is still waiting after any number of polls up to
    [k]; it returns at poll [k + 1], in the
    setup mode, with both clocks at the full time of the selected option;
    and up to then it has written the announcement and one delay of 50
    ms for each poll that read [HIGH]. *)
Theorem gameOver_waits_for_control k polls m :
  valid_option (globals m) ->
  let m1 := final (announce variant m) in
  (forall j, (j < k)%nat -> reading CONTROL_BUTTON (waited j m1) = HIGH) ->
  reading CONTROL_BUTTON (waited k m1) = LOW ->
  let r := gameOver variant polls m in
  returned r = (k <? polls)%nat /\
  emitted (gameOver variant polls) m
  = announcement variant (globals m) ++ repeat (Delay 50) (Nat.min k polls) /\
  (returned r = true ->
   isSetup (globals (final r)) = true /\
   whiteTime (globals (final r))
   = 1000 * time_option (currentTimeOption (globals m)) /\
   blackTime (globals (final r))
   = 1000 * time_option (currentTimeOption (globals m))).
Proof.
  intros Hv m1 Hhigh Hlow r.
  destruct (announce_spec m) as (_ & Hg1 & _ & Ho1). fold m1 in Hg1, Ho1.
  assert (Hr : r = if (k <? polls)%nat
                   then resetTimes
                          (mkMachine
                             (set_isSetup true (globals (waited k m1)))
                             (statics (waited k m1))
                             (snd (board_digitalRead CONTROL_BUTTON
                                     (world (waited k m1))))
                             (out (waited k m1)))
                   else Blocked (waited polls m1)).
  { unfold r. rewrite gameOver_eq. fold m1.
    rewrite (waitRestart_exact k m1 polls Hhigh Hlow).
    now destruct (k <? polls)%nat. }
  destruct (waited_out k m1) as (Hok & Hgk & _).
  destruct (waited_out polls m1) as (Hop & _ & _).
  assert (Hret : returned r = (k <? polls)%nat).
  { rewrite Hr. destruct (k <? polls)%nat; [ | reflexivity ].
    match goal with
    | |- returned (resetTimes ?x) = _ =>
        now rewrite (total_unit _ x total_resetTimes)
    end. }
  split; [ exact Hret | ]. split.
  - apply emitted_app. fold r. rewrite Hr.
    destruct (k <? polls)%nat eqn:E.
    + apply Nat.ltb_lt in E.
      rewrite (proj2 (proj2 (resetTimes_spec _))). cbn [out].
      rewrite Hok, Ho1, <- app_assoc.
      now replace (Nat.min k polls) with k by lia.
    + apply Nat.ltb_ge in E. cbn [final].
      rewrite Hop, Ho1, <- app_assoc.
      now replace (Nat.min k polls) with polls by lia.
  - intros Ht. rewrite Hret in Ht. rewrite Hr, Ht.
    rewrite (proj1 (resetTimes_spec _)). cbn [globals].
    rewrite Hgk, Hg1. unfold reset. cbn.
    unfold full_time. cbn.
    unfold valid_option, NUM_OPTIONS in Hv.
    assert (Hc : currentTimeOption (globals m) = 0 \/
                 currentTimeOption (globals m) = 1 \/
                 currentTimeOption (globals m) = 2 \/
                 currentTimeOption (globals m) = 3) by lia.
    destruct Hc as [-> | [-> | [-> | ->]]]; repeat split.
Qed.

(** ** The clock face *)

Lemma printFormattedTime_out t m :
  out (final (printFormattedTime t m))
  = out m ++ clockFace (Z.quot (to_int (t / 1000)) 60)
                       (Z.rem (to_int (t / 1000)) 60).
Proof.
  unfold printFormattedTime, clockFace, bind, when, lcd_print,
    lcd_printInt, emit, ret.
  destruct (Z.quot (to_int (t / 1000)) 60 <? 10),
           (Z.rem (to_int (t / 1000)) 60 <? 10);
    cbn [final out app]; repeat rewrite <- app_assoc; reflexivity.
Qed.

(** X11.  [printFormattedTime] shows a time in whole seconds, rounded
    down, as minutes and seconds: for every [unsigned long] [t] it writes
    the minutes [t / 60000] and the seconds [(t / 1000) mod 60], each
    with a leading "0" below 10, and a ":" between them; the conversion
    to [int] never overflows, the seconds are below 60, and below 100
    minutes (6000000 ms) the minutes fit two digits. *)
Theorem printFormattedTime_shows_floor t m :
  is_ulong t ->
  let mins := t / 1000 / 60 in
  let secs := (t / 1000) mod 60 in
  emitted (printFormattedTime t) m = clockFace mins secs /\
  0 <= secs < 60 /\
  0 <= mins /\
  mins * 60 + secs = t / 1000 /\
  (t < 6000000 -> mins < 100).
Proof.
  intros Ht mins secs. unfold is_ulong, ULONG_MOD in Ht.
  assert (Hs : 0 <= t / 1000 < 2 ^ 31).
  { split; [ apply Z.div_pos; lia | ].
    apply Z.div_lt_upper_bound; lia. }
  assert (Hi : to_int (t / 1000) = t / 1000).
  { unfold to_int. rewrite Z.mod_small by lia. lia. }
  assert (Hq : Z.quot (to_int (t / 1000)) 60 = mins).
  { rewrite Hi. apply Z.quot_div_nonneg; lia. }
  assert (Hr : Z.rem (to_int (t / 1000)) 60 = secs).
  { rewrite Hi. apply Z.rem_mod_nonneg; lia. }
  split.
  { apply emitted_app. now rewrite printFormattedTime_out, Hq, Hr. }
  assert (Hm : 0 <= secs < 60) by (apply Z.mod_pos_bound; lia).
  split; [ exact Hm | ].
  split; [ apply Z.div_pos; lia | ].
  split.
  { unfold mins, secs. pose proof (Z.div_mod (t / 1000) 60). lia. }
  intros Hlt. unfold mins.
  apply Z.div_lt_upper_bound; [ lia | ].
  apply Z.div_lt_upper_bound; lia.
Qed.

(** ** The turn display *)






End Theory.

(** * The claims on the scripted board *)

Ltac by_run := vm_compute; reflexivity.

(** C1, as the specification words it, fails: in [white_presses] the
    clock runs, White is to move and presses the own button, and the turn
    passes to Black. *)
Lemma switchTurn_as_specified_fails : ~ switchTurn_as_specified.
Proof.
  intros H.
  assert (Hrun : isRunning (globals white_presses) = true) by by_run.
  assert (Hctl : reading CONTROL_BUTTON white_presses = HIGH) by by_run.
  destruct (H Plain 1%nat white_presses Hrun Hctl) as [Hown _].
  assert (Hpress : reading (button Plain (active (globals white_presses)))
                           (afterUpdate Plain white_presses) = LOW)
    by by_run.
  specialize (Hown Hpress). vm_compute in Hown. discriminate Hown.
Qed.

Lemma switchTurn_by_active_player_witness :
  (isRunning (globals white_presses) = true /\
   reading CONTROL_BUTTON white_presses = HIGH /\
   reading (button Plain White) (afterUpdate Plain white_presses) = LOW /\
   isWhiteTurn (globals (final (handleGame Plain 1 white_presses))) = false)
  /\
  (isRunning (globals black_presses) = true /\
   reading CONTROL_BUTTON black_presses = HIGH /\
   reading (button Plain White) (afterUpdate Plain black_presses) = HIGH /\
   reading (button Plain Black) (afterUpdate Plain black_presses) = LOW /\
   isWhiteTurn (globals (final (handleGame Plain 1 black_presses))) = true).
Proof.
  split.
  - assert (Hrun : isRunning (globals white_presses) = true) by by_run.
    assert (Hctl : reading CONTROL_BUTTON white_presses = HIGH) by by_run.
    assert (Hown : reading (button Plain White)
                           (afterUpdate Plain white_presses) = LOW)
      by by_run.
    repeat (split; [ assumption | ]).
    exact (proj1 (switchTurn_by_active_player Plain 1%nat white_presses
                    Hrun Hctl) Hown).
  - assert (Hrun : isRunning (globals black_presses) = true) by by_run.
    assert (Hctl : reading CONTROL_BUTTON black_presses = HIGH) by by_run.
    assert (Hown : reading (button Plain White)
                           (afterUpdate Plain black_presses) = HIGH)
      by by_run.
    assert (Hoth : reading (button Plain Black)
                           (afterUpdate Plain black_presses) = LOW)
      by by_run.
    repeat (split; [ assumption | ]).
    exact (proj2 (switchTurn_by_active_player Plain 1%nat black_presses
                    Hrun Hctl) Hown).
Defined.

Lemma Inv_black_to_move : Inv (globals black_to_move).
Proof.
  unfold Inv, valid_option, is_ulong, NUM_OPTIONS, ULONG_MOD; simpl; lia.
Defined.

Lemma flag_fall_ends_game_witness :
  Inv (globals black_to_move) /\
  remaining Black (globals (final (gameStep Plain black_to_move))) = 0 /\
  winner (globals (final (gameStep Plain black_to_move))) = White /\
  printed "White Wins!" (emitted (handleGame Plain 3) black_to_move).
Proof.
  split; [ exact Inv_black_to_move | ].
  destruct (flag_fall_ends_game Plain 3%nat black_to_move Inv_black_to_move)
    as (Hiff & _ & _ & Hend).
  assert (H0 : remaining Black (globals (final (gameStep Plain black_to_move)))
               = 0) by by_run.
  split; [ exact H0 | ].
  destruct (Hend (proj2 Hiff H0)) as (_ & Hwin & _ & Hprint & _).
  split; [ exact Hwin | exact Hprint ].
Defined.

Lemma advance_debits_with_floor_witness :
  let m1 := afterToggle Plain white_presses in
  let g := globals m1 in
  let g' := globals (afterUpdate Plain white_presses) in
  (isRunning g = true /\
   is_ulong (remaining (active g) g) /\
   is_ulong (lastUpdateTime g) /\
   lastUpdateTime g <= clock m1) /\
  remaining (active g) g'
  = (if clock m1 - lastUpdateTime g >=? remaining (active g) g
     then 0
     else remaining (active g) g - (clock m1 - lastUpdateTime g)) /\
  remaining (other (active g)) g' = remaining (other (active g)) g.
Proof.
  intros m1 g g'.
  assert (Hrun : isRunning g = true) by by_run.
  assert (H1 : is_ulong (remaining (active g) g))
    by (vm_compute; split; [ discriminate | reflexivity ]).
  assert (H2 : is_ulong (lastUpdateTime g))
    by (vm_compute; split; [ discriminate | reflexivity ]).
  assert (H3 : lastUpdateTime g <= clock m1) by (vm_compute; discriminate).
  split; [ repeat split; assumption | ].
  destruct (advance_debits_with_floor Plain white_presses Hrun H1 H2 H3)
    as (Hrem & _ & Hother & _).
  split; [ exact Hrem | exact Hother ].
Defined.

(** In [white_presses] the update takes the 10 ms since the last one off
    White's clock. *)
Example white_presses_debit :
  whiteTime (globals (afterUpdate Plain white_presses)) = 599990 /\
  blackTime (globals (afterUpdate Plain white_presses)) = 600000.
Proof. split; by_run. Qed.

Lemma Inv_paused_game : Inv (globals paused_game).
Proof.
  unfold Inv, valid_option, is_ulong, NUM_OPTIONS, ULONG_MOD; simpl; lia.
Defined.

Lemma Inv_idle_pause : Inv (globals idle_pause).
Proof.
  unfold Inv, valid_option, is_ulong, NUM_OPTIONS, ULONG_MOD; simpl; lia.
Defined.

Lemma no_debit_unless_running_witness :
  (Inv (globals idle_pause) /\
   isRunning (globals idle_pause) = false /\
   reading CONTROL_BUTTON idle_pause = HIGH /\
   whiteTime (globals (final (gameStep Plain idle_pause)))
   = whiteTime (globals idle_pause) /\
   blackTime (globals (final (gameStep Plain idle_pause)))
   = blackTime (globals idle_pause)) /\
  (Inv (globals paused_game) /\
   isRunning (globals paused_game) = false /\
   reading CONTROL_BUTTON paused_game = LOW /\
   lastUpdateTime (globals (afterToggle Plain paused_game))
   = clock (final (digitalRead CONTROL_BUTTON paused_game)) /\
   globals (afterUpdate Plain paused_game)
   = advance (clock (afterToggle Plain paused_game))
             (globals (afterToggle Plain paused_game))).
Proof.
  split.
  - assert (Hrun : isRunning (globals idle_pause) = false) by by_run.
    assert (Hctl : reading CONTROL_BUTTON idle_pause = HIGH) by by_run.
    destruct (no_debit_unless_running Plain 1%nat idle_pause
                Inv_idle_pause Hrun) as (Hidle & _ & _).
    destruct (Hidle Hctl) as (_ & Hw & Hb & _).
    repeat (split; [ first [ assumption | exact Inv_idle_pause ] | ]).
    exact Hb.
  - assert (Hrun : isRunning (globals paused_game) = false) by by_run.
    assert (Hctl : reading CONTROL_BUTTON paused_game = LOW) by by_run.
    destruct (no_debit_unless_running Plain 1%nat paused_game
                Inv_paused_game Hrun) as (_ & Hresume & _).
    destruct (Hresume Hctl) as (_ & Hl & _ & _ & Hg).
    repeat (split; [ first [ assumption | exact Inv_paused_game ] | ]).
    exact Hg.
Defined.

Lemma warnings_fire_once_witness :
  let m0 := minute_warning in
  let m3 := final (passes Plain 3 1 minute_warning) in
  game_run Plain m0 m3 /\
  (beeps WarningOneMinute (out m3)
   <= beeps WarningOneMinute (out m0) + 1)%nat /\
  (beeps WarningThirtySeconds (out m3)
   <= beeps WarningThirtySeconds (out m0) + 1)%nat.
Proof.
  intros m0 m3.
  set (m1 := final (passes Plain 1 1 minute_warning)).
  set (m2 := final (passes Plain 2 1 minute_warning)).
  assert (S0 : isSetup (globals m0) = false) by by_run.
  assert (S1 : isSetup (globals m1) = false) by by_run.
  assert (S2 : isSetup (globals m2) = false) by by_run.
  assert (E0 : loop Plain 1 m0 = Done tt m1) by by_run.
  assert (E1 : loop Plain 1 m1 = Done tt m2) by by_run.
  assert (E2 : loop Plain 1 m2 = Done tt m3) by by_run.
  assert (Hrun : game_run Plain m0 m3).
  { exact (game_run_step Plain m0 1 m1 m3 S0 E0
             (game_run_step Plain m1 1 m2 m3 S1 E1
                (game_run_step Plain m2 1 m3 m3 S2 E2
                   (game_run_refl Plain m3)))). }
  split; [ exact Hrun | ].
  destruct (warnings_fire_once Plain m0 m3 Hrun) as (H1 & H30 & _).
  split; [ exact H1 | exact H30 ].
Defined.

(** In [minute_warning] the one-minute warning sounds in the first pass
    and not again in the next two. *)
Example minute_warning_beeps :
  beeps WarningOneMinute (out (final (passes Plain 1 1 minute_warning))) = 1%nat
  /\ beeps WarningOneMinute (out (final (passes Plain 3 1 minute_warning)))
     = 1%nat.
Proof. split; by_run. Qed.

(** C6, as the specification words it, fails: in [paused_countdown] the
    final countdown beep sounds with 5000 ms left and, after a pause, a
    second time with 4800 ms left; both times 5 seconds are left, rounded
    up. *)
Lemma finalCountdown_as_specified_fails : ~ finalCountdown_as_specified.
Proof.
  intros H.
  assert (Hin : in_game Plain 5 1 paused_countdown = true) by by_run.
  specialize (H Plain 5%nat 1%nat paused_countdown Hin).
  assert (E : final_beep_seconds Plain 5 1 paused_countdown = [5; 5])
    by by_run.
  rewrite E in H. inversion H as [|x l Hnotin _]; subst.
  apply Hnotin. now left.
Qed.

Lemma final_beep_rate_limited_witness :
  let m := paused_countdown in
  let m' := final (loop Plain 1 m) in
  let n := beeps FinalCountdownBeep (out m) in
  let n' := beeps FinalCountdownBeep (out m') in
  let last := lastFinalSecondBeep (statics m) in
  let last' := lastFinalSecondBeep (statics m') in
  isSetup (globals m) = false /\
  ((n' = n /\ last' = last) \/
   (n' = S n /\
    isRunning (globals m') = true /\
    currentPlayerTime (globals m') <= 5000 /\
    1000 <= to_ulong (last' - last) /\
    is_ulong last')).
Proof.
  intros m m' n n' last last'.
  assert (Hs : isSetup (globals m) = false) by by_run.
  split; [ exact Hs | ].
  exact (final_beep_rate_limited Plain 1%nat m Hs).
Defined.

(** The two beeps of [paused_countdown]: at 118012 and at 128215. *)
Example paused_countdown_beeps :
  lastFinalSecondBeep (statics (final (passes Plain 1 1 paused_countdown)))
  = 118012 /\
  whiteTime (globals (final (passes Plain 1 1 paused_countdown))) = 5000 /\
  lastFinalSecondBeep (statics (final (passes Plain 5 1 paused_countdown)))
  = 128215 /\
  whiteTime (globals (final (passes Plain 5 1 paused_countdown))) = 4800 /\
  beeps FinalCountdownBeep (out (final (passes Plain 5 1 paused_countdown)))
  = 2%nat.
Proof. repeat split; by_run. Qed.

Lemma advance_twice_same_now_witness :
  let m := same_reading in
  let m1 := final (updateTime m) in
  clock m1 = clock m /\
  globals (final (updateTime m1)) = globals m1.
Proof.
  intros m m1.
  assert (Hsame : clock m1 = clock m) by by_run.
  split; [ exact Hsame | ].
  exact (proj1 (proj2 (advance_twice_same_now m Hsame))).
Defined.

Lemma confirmSetup_sets_both_clocks_witness :
  let g0 := globals (final (handleSetup Plain (confirming 0))) in
  let g1 := globals (final (handleSetup Plain (confirming 1))) in
  let g2 := globals (final (handleSetup Plain (confirming 2))) in
  let g3 := globals (final (handleSetup Plain (confirming 3))) in
  (whiteTime g0 = 120 * 1000 /\ blackTime g0 = 120 * 1000) /\
  (whiteTime g1 = 600 * 1000 /\ blackTime g1 = 600 * 1000) /\
  (whiteTime g2 = 1800 * 1000 /\ blackTime g2 = 1800 * 1000) /\
  (whiteTime g3 = 3600 * 1000 /\ blackTime g3 = 3600 * 1000).
Proof.
  intros g0 g1 g2 g3.
  assert (I0 : In 120 TIME_OPTIONS) by (simpl; auto).
  assert (I1 : In 600 TIME_OPTIONS) by (simpl; auto).
  assert (I2 : In 1800 TIME_OPTIONS) by (simpl; auto).
  assert (I3 : In 3600 TIME_OPTIONS) by (simpl; auto).
  assert (D0 : time_option (currentTimeOption
                 (globals (atConfirm Plain (confirming 0)))) = 120) by by_run.
  assert (D1 : time_option (currentTimeOption
                 (globals (atConfirm Plain (confirming 1)))) = 600) by by_run.
  assert (D2 : time_option (currentTimeOption
                 (globals (atConfirm Plain (confirming 2)))) = 1800) by by_run.
  assert (D3 : time_option (currentTimeOption
                 (globals (atConfirm Plain (confirming 3)))) = 3600) by by_run.
  assert (C0 : reading CONTROL_BUTTON (atConfirm Plain (confirming 0)) = LOW)
    by by_run.
  assert (C1 : reading CONTROL_BUTTON (atConfirm Plain (confirming 1)) = LOW)
    by by_run.
  assert (C2 : reading CONTROL_BUTTON (atConfirm Plain (confirming 2)) = LOW)
    by by_run.
  assert (C3 : reading CONTROL_BUTTON (atConfirm Plain (confirming 3)) = LOW)
    by by_run.
  destruct (confirmSetup_sets_both_clocks Plain 120 (confirming 0) I0 D0 C0)
    as (W0 & B0 & _).
  destruct (confirmSetup_sets_both_clocks Plain 600 (confirming 1) I1 D1 C1)
    as (W1 & B1 & _).
  destruct (confirmSetup_sets_both_clocks Plain 1800 (confirming 2) I2 D2 C2)
    as (W2 & B2 & _).
  destruct (confirmSetup_sets_both_clocks Plain 3600 (confirming 3) I3 D3 C3)
    as (W3 & B3 & _).
  repeat split; assumption.
Defined.

Lemma turn_carries_over_witness :
  let ended := final (gameStep Plain black_to_move) in
  let restarted := final (gameOver Plain 3 ended) in
  isSetup (globals restarted) = true /\
  isWhiteTurn (globals restarted) = isWhiteTurn (globals ended) /\
  isWhiteTurn (globals (final (loop Plain 3 restarted)))
  = isWhiteTurn (globals restarted).
Proof.
  intros ended restarted.
  assert (Hs : isSetup (globals restarted) = true) by by_run.
  split; [ exact Hs | ].
  split.
  - exact (proj1 (proj2 (turn_carries_over Plain 3%nat ended))).
  - exact (proj2 (proj2 (turn_carries_over Plain 3%nat restarted)) Hs).
Defined.

(** The game of [black_to_move] ends on Black's move; after the restart
    and the confirmation of the setup, the new game waits with full
    clocks and Black to move. *)
Example second_game_black_to_move :
  let m := final (passes Plain 2 3 black_to_move) in
  returned (passes Plain 2 3 black_to_move) = true /\
  isSetup (globals m) = false /\
  isRunning (globals m) = false /\
  isWhiteTurn (globals m) = false /\
  whiteTime (globals m) = 600000 /\
  blackTime (globals m) = 600000.
Proof. repeat split; by_run. Qed.

Lemma both_zero_black_wins_witness :
  let m1 := final (gameStep Plain both_flags_fall) in
  whiteTime (globals m1) = 0 /\
  blackTime (globals m1) = 0 /\
  winner (globals m1) = Black /\
  printed "Black Wins!" (emitted (gameOver Plain 3) m1).
Proof.
  intros m1.
  assert (Hw : whiteTime (globals m1) = 0) by by_run.
  assert (Hb : blackTime (globals m1) = 0) by by_run.
  destruct (both_zero_black_wins Plain 3%nat both_flags_fall Hw Hb)
    as (_ & Hwin & Hprint & _).
  split; [ exact Hw | ]. split; [ exact Hb | ].
  split; [ exact Hwin | exact Hprint ].
Defined.

(** The first moves of a game, from power-on: ten minutes each once the
    setup is confirmed; the clock started; White's clock debited until
    White presses, then Black to move. *)
Example first_moves_run :
  let confirmed := globals (final (boot Plain 1 1 first_moves)) in
  let started := globals (final (boot Plain 2 1 first_moves)) in
  let moved := globals (final (boot Plain 3 1 first_moves)) in
  (whiteTime confirmed = 600000 /\ blackTime confirmed = 600000 /\
   isSetup confirmed = false /\ isRunning confirmed = false) /\
  (isRunning started = true /\ isWhiteTurn started = true /\
   whiteTime started = 599800) /\
  (isWhiteTurn moved = false /\ whiteTime moved = 595000 /\
   blackTime moved = 600000) /\
  reachable Plain (final (boot Plain 3 1 first_moves)).
Proof.
  intros confirmed started moved.
  split; [ repeat split; by_run | ].
  split; [ repeat split; by_run | ].
  split; [ repeat split; by_run | ].
  apply (reach_loop Plain (final (boot Plain 2 1 first_moves)) 1%nat);
    [ | by_run ].
  apply (reach_loop Plain (final (boot Plain 1 1 first_moves)) 1%nat);
    [ | by_run ].
  apply (reach_loop Plain (final (setup Plain (power_on first_moves))) 1%nat);
    [ | by_run ].
  apply (reach_setup Plain first_moves). by_run.
Qed.

(** ** The buzzer helpers *)

Lemma pinAfter_app lv l1 l2 :
  pinAfter lv (l1 ++ l2) = pinAfter (pinAfter lv l1) l2.
Proof.
  revert lv. induction l1 as [|[lv'|us|ms] l1 IH]; intros lv; simpl; auto.
Qed.

Lemma duration_app l1 l2 : duration (l1 ++ l2) = duration l1 + duration l2.
Proof.
  induction l1 as [|[lv'|us|ms] l1 IH]; simpl; lia.
Qed.

Lemma highTime_app lv l1 l2 :
  highTime lv (l1 ++ l2) = highTime lv l1 + highTime (pinAfter lv l1) l2.
Proof.
  revert lv. induction l1 as [|[lv'|us|ms] l1 IH]; intros lv; simpl;
    rewrite ?IH; lia.
Qed.

Lemma toneCycles_spec n half lv :
  pinAfter lv (toneCycles n half) = (match n with O => lv | S _ => LOW end) /\
  duration (toneCycles n half) = 2 * Z.of_nat n * half /\
  highTime lv (toneCycles n half) = Z.of_nat n * half.
Proof.
  revert lv. induction n as [|k IH]; intros lv.
  - simpl. repeat split; lia.
  - destruct (IH LOW) as (Hp & Hd & Hh).
    cbn [toneCycles app pinAfter duration highTime is_low].
    rewrite Hp, Hd, Hh. repeat split; [ now destruct k | lia | lia ].
Qed.

Lemma toneBursts_spec bursts n half lv :
  pinAfter lv (toneBursts bursts (S n) half)
  = (match bursts with O => lv | S _ => LOW end) /\
  duration (toneBursts bursts (S n) half)
  = Z.of_nat bursts * (2 * Z.of_nat (S n) * half + 100000) /\
  highTime lv (toneBursts bursts (S n) half)
  = Z.of_nat bursts * (Z.of_nat (S n) * half).
Proof.
  revert lv. induction bursts as [|k IH]; intros lv.
  - simpl. repeat split; lia.
  - destruct (IH LOW) as (Hp & Hd & Hh).
    destruct (toneCycles_spec (S n) half lv) as (Cp & Cd & Ch).
    cbn [toneBursts].
    rewrite pinAfter_app, duration_app, highTime_app, Cp, Cd, Ch.
    cbn [app pinAfter duration highTime is_low].
    rewrite Hp, Hd, Hh. repeat split; [ now destruct k | lia | lia ].
Qed.

(** X13.  Every buzzer helper leaves the buzzer pin [LOW], whatever level
    it found, drives it [HIGH] for half of the tone, and blocks the
    sketch for a fixed time: 50 ms for a warning and for a final countdown
    beep (50 periods of 1000 us, 100 periods of 500 us), 150 ms for the
    start beep and 300 ms for the start-up and the pause beep (tone bursts
    of 50 ms, each followed by a delay of 100 ms). *)
Theorem buzzer_helpers_end_low sig lv :
  pinAfter lv (buzz sig) = LOW /\
  duration (buzz sig)
  = match sig with
    | StartupBeep | RunPaused => 300000
    | RunStarted => 150000
    | WarningOneMinute | WarningThirtySeconds | FinalCountdownBeep => 50000
    end /\
  highTime lv (buzz sig)
  = match sig with
    | StartupBeep | RunPaused => 50000
    | _ => 25000
    end.
Proof.
  destruct sig; unfold buzz, playStartupBeep, playStartBeep, playPauseBeep,
    playWarningBeep, playFinalSecondsBeep.
  - destruct (toneBursts_spec 2 49 500 lv) as (-> & -> & ->).
    repeat split.
  - destruct (toneBursts_spec 1 49 500 lv) as (-> & -> & ->).
    repeat split.
  - destruct (toneBursts_spec 2 49 500 lv) as (-> & -> & ->).
    repeat split.
  - destruct (toneCycles_spec 50 500 lv) as (-> & -> & ->). repeat split.
  - destruct (toneCycles_spec 50 500 lv) as (-> & -> & ->). repeat split.
  - destruct (toneCycles_spec 100 250 lv) as (-> & -> & ->). repeat split.
Qed.

(** * The further properties on the scripted board *)

Ltac by_range := vm_compute; split; [ discriminate | reflexivity ].

Lemma option_selection_wraps_witness :
  valid_option (globals browsing) /\
  currentTimeOption (globals (final (handleSetup Plain browsing)))
  = (3 + 1 - 0) mod NUM_OPTIONS.
Proof.
  assert (Hv : valid_option (globals browsing))
    by (vm_compute; split; [ discriminate | reflexivity ]).
  split; [ exact Hv | ].
  exact (proj1 (option_selection_wraps Plain browsing Hv)).
Defined.

Lemma advance_across_rollover_witness :
  let g := globals rollover in
  (is_ulong (lastUpdateTime g) /\
   is_ulong (remaining (active g) g) /\
   0 <= 250 < ULONG_MOD /\
   clock rollover = to_ulong (lastUpdateTime g + 250)) /\
  remaining (active g) (globals (final (updateTime rollover)))
  = (if 250 >=? remaining (active g) g
     then 0 else remaining (active g) g - 250).
Proof.
  intros g.
  assert (H1 : is_ulong (lastUpdateTime g)) by by_range.
  assert (H2 : is_ulong (remaining (active g) g)) by by_range.
  assert (H3 : 0 <= 250 < ULONG_MOD) by by_range.
  assert (H4 : clock rollover = to_ulong (lastUpdateTime g + 250))
    by by_run.
  split; [ repeat (split; [ assumption | ]); assumption | ].
  exact (proj1 (advance_across_rollover 250 rollover H1 H2 H3 H4)).
Defined.

(** In [rollover] 250 ms pass across the roll-over of [millis], and 250
    ms are debited. *)
Example rollover_debit :
  whiteTime (globals (final (updateTime rollover))) = 599750.
Proof. by_run. Qed.

Lemma advance_composes_witness :
  let g := globals two_updates in
  let m1 := final (updateTime two_updates) in
  (is_ulong (lastUpdateTime g) /\
   is_ulong (remaining (active g) g) /\
   lastUpdateTime g <= clock two_updates /\
   clock two_updates <= clock m1) /\
  globals (final (updateTime m1)) = advance (clock m1) g.
Proof.
  intros g m1.
  assert (H1 : is_ulong (lastUpdateTime g)) by by_range.
  assert (H2 : is_ulong (remaining (active g) g)) by by_range.
  assert (H3 : lastUpdateTime g <= clock two_updates)
    by (vm_compute; discriminate).
  assert (H4 : clock two_updates <= clock m1)
    by (vm_compute; discriminate).
  split; [ repeat (split; [ assumption | ]); assumption | ].
  exact (advance_composes two_updates H1 H2 H3 H4).
Defined.

Lemma Inv_pausing : Inv (globals pausing).
Proof.
  unfold Inv, valid_option, is_ulong, NUM_OPTIONS, ULONG_MOD; simpl; lia.
Defined.

Lemma stopped_clock_ignores_players_witness :
  Inv (globals pausing) /\
  isRunning (globals (afterToggle Plain pausing)) = false /\
  reading (button Plain White) (afterToggle Plain pausing) = LOW /\
  whiteTime (globals (final (gameStep Plain pausing)))
  = whiteTime (globals pausing) /\
  isWhiteTurn (globals (final (gameStep Plain pausing)))
  = isWhiteTurn (globals pausing).
Proof.
  assert (Hstop : isRunning (globals (afterToggle Plain pausing)) = false)
    by by_run.
  assert (Hpress : reading (button Plain White) (afterToggle Plain pausing)
                   = LOW) by by_run.
  destruct (stopped_clock_ignores_players Plain 1%nat pausing Inv_pausing)
    as [_ H].
  destruct (H Hstop) as (_ & Hw & _ & Ht).
  split; [ exact Inv_pausing | ].
  split; [ exact Hstop | ]. split; [ exact Hpress | ].
  split; [ exact Hw | exact Ht ].
Defined.

Lemma first_moves_reachable :
  reachable Plain (final (boot Plain 3 1 first_moves)).
Proof.
  apply (reach_loop Plain (final (boot Plain 2 1 first_moves)) 1%nat);
    [ | by_run ].
  apply (reach_loop Plain (final (boot Plain 1 1 first_moves)) 1%nat);
    [ | by_run ].
  apply (reach_loop Plain (final (setup Plain (power_on first_moves))) 1%nat);
    [ | by_run ].
  apply (reach_setup Plain first_moves). by_run.
Defined.


Lemma startup_beep_never_sounds_witness :
  let m := final (boot Plain 3 1 first_moves) in
  reachable Plain m /\
  isSetup (globals m) = false /\
  beeps StartupBeep (out m) = 0%nat /\
  atHandleGame Plain m = m.
Proof.
  intros m.
  assert (Hs : isSetup (globals m) = false) by by_run.
  destruct (startup_beep_never_sounds Plain m first_moves_reachable)
    as (Hb & Hat).
  split; [ exact first_moves_reachable | ].
  split; [ exact Hs | ]. split; [ exact Hb | exact (Hat Hs) ].
Defined.

Lemma setup_pass_rearms_warnings_witness :
  let m' := final (loop Plain 1 browsing) in
  isSetup (globals browsing) = true /\
  hasOneMinuteWarning (statics m') = false /\
  lastFinalSecondBeep (statics m') = 0 /\
  isSetup (globals m')
  = negb (is_low (reading CONTROL_BUTTON (atConfirm Plain browsing))).
Proof.
  intros m'.
  assert (Hs : isSetup (globals browsing) = true) by by_run.
  destruct (setup_pass_rearms_warnings Plain 1%nat browsing Hs)
    as (_ & H1 & _ & Hl & _ & Hc & _).
  split; [ exact Hs | ]. split; [ exact H1 | ].
  split; [ exact Hl | exact Hc ].
Defined.

Lemma warning_sounds_when_due_witness :
  let m := minute_warning in
  let m' := final (loop Plain 1 m) in
  isSetup (globals m) = false /\
  warningDue 60000 (globals m') (hasOneMinuteWarning (statics m)) = true /\
  (beeps WarningOneMinute (out m')
   = beeps WarningOneMinute (out m)
     + if warningDue 60000 (globals m') (hasOneMinuteWarning (statics m))
       then 1 else 0)%nat.
Proof.
  intros m m'.
  assert (Hs : isSetup (globals m) = false) by by_run.
  assert (Hd : warningDue 60000 (globals m')
                 (hasOneMinuteWarning (statics m)) = true) by by_run.
  split; [ exact Hs | ]. split; [ exact Hd | ].
  exact (proj1 (warning_sounds_when_due Plain 1%nat m Hs)).
Defined.

Lemma minute_warning_run :
  game_run Plain minute_warning (final (passes Plain 3 1 minute_warning)).
Proof.
  set (m0 := minute_warning).
  set (m1 := final (passes Plain 1 1 minute_warning)).
  set (m2 := final (passes Plain 2 1 minute_warning)).
  set (m3 := final (passes Plain 3 1 minute_warning)).
  assert (S0 : isSetup (globals m0) = false) by by_run.
  assert (S1 : isSetup (globals m1) = false) by by_run.
  assert (S2 : isSetup (globals m2) = false) by by_run.
  assert (E0 : loop Plain 1 m0 = Done tt m1) by by_run.
  assert (E1 : loop Plain 1 m1 = Done tt m2) by by_run.
  assert (E2 : loop Plain 1 m2 = Done tt m3) by by_run.
  exact (game_run_step Plain m0 1 m1 m3 S0 E0
           (game_run_step Plain m1 1 m2 m3 S1 E1
              (game_run_step Plain m2 1 m3 m3 S2 E2
                 (game_run_refl Plain m3)))).
Defined.

Lemma Inv_minute_warning : Inv (globals minute_warning).
Proof.
  unfold Inv, valid_option, is_ulong, NUM_OPTIONS, ULONG_MOD; simpl; lia.
Defined.

Lemma clocks_never_increase_witness :
  let m := minute_warning in
  let m' := final (passes Plain 3 1 minute_warning) in
  (game_run Plain m m' /\ Inv (globals m) /\ isSetup (globals m') = false) /\
  0 < whiteTime (globals m') <= whiteTime (globals m) /\
  0 < blackTime (globals m') <= blackTime (globals m).
Proof.
  intros m m'.
  assert (Hs : isSetup (globals m') = false) by by_run.
  split; [ split; [ exact minute_warning_run
                  | split; [ exact Inv_minute_warning | exact Hs ] ] | ].
  exact (clocks_never_increase Plain m m' minute_warning_run
           Inv_minute_warning Hs).
Defined.

Lemma gameOver_waits_for_control_witness :
  let m1 := final (announce Plain flag_fallen) in
  (valid_option (globals flag_fallen) /\
   reading CONTROL_BUTTON (waited 0 m1) = HIGH /\
   reading CONTROL_BUTTON (waited 1 m1) = HIGH /\
   reading CONTROL_BUTTON (waited 2 m1) = LOW) /\
  returned (gameOver Plain 2 flag_fallen) = false /\
  returned (gameOver Plain 3 flag_fallen) = true /\
  emitted (gameOver Plain 3) flag_fallen
  = announcement Plain (globals flag_fallen) ++ [Delay 50; Delay 50].
Proof.
  intros m1.
  assert (Hv : valid_option (globals flag_fallen))
    by (vm_compute; split; [ discriminate | reflexivity ]).
  assert (H0 : reading CONTROL_BUTTON (waited 0 m1) = HIGH) by by_run.
  assert (H1 : reading CONTROL_BUTTON (waited 1 m1) = HIGH) by by_run.
  assert (H2 : reading CONTROL_BUTTON (waited 2 m1) = LOW) by by_run.
  assert (Hhigh : forall j, (j < 2)%nat ->
                    reading CONTROL_BUTTON (waited j m1) = HIGH).
  { intros [|[|j]] Hj; [ exact H0 | exact H1 | lia ]. }
  split; [ repeat (split; [ assumption | ]); assumption | ].
  destruct (gameOver_waits_for_control Plain 2 2 flag_fallen Hv Hhigh H2)
    as (R2 & _).
  destruct (gameOver_waits_for_control Plain 2 3 flag_fallen Hv Hhigh H2)
    as (R3 & E3 & _).
  split; [ exact R2 | ]. split; [ exact R3 | exact E3 ].
Defined.

Lemma printFormattedTime_shows_floor_witness :
  is_ulong 595999 /\
  emitted (printFormattedTime 595999) white_presses
  = clockFace (595999 / 1000 / 60) ((595999 / 1000) mod 60).
Proof.
  assert (Ht : is_ulong 595999) by by_range.
  split; [ exact Ht | ].
  exact (proj1 (printFormattedTime_shows_floor 595999 white_presses Ht)).
Defined.

(** 595999 ms are shown as 09:55. *)
Example clock_face_595999 :
  emitted (printFormattedTime 595999) white_presses
  = [LcdPrint "0"; LcdPrintInt 9; LcdPrint ":"; LcdPrintInt 55].
Proof. by_run. Qed.

